(** * LibFuzzer front end of DeepState: a shallow embedding

    Source: [src/bin/deepstate/executors/fuzz/libfuzzer.py].

    The development follows the three methods of class [LibFuzzer] that carry
    behaviour of their own:
    - [pre_exec]: sanity checks and the layout of the output directory
      (fresh session against resumed session);
    - [cmd]: the argument vector handed to the libFuzzer binary;
    - [populate_stats]: the reader of the harness' standard error stream.

    Python values are embedded as follows.  [bytes] and [str] objects are Rocq
    strings (a Rocq [ascii] is one octet; a decoded [str] is represented by
    its UTF-8 octets, which determine it).  Python integers are [Z].  The
    dictionary [self.stats] is a [gmap string string].  Exceptions are the
    constructors of [exn]; a method is a function of the monad [M], which
    threads the mutable world (the object, the file system, the log) and keeps
    the mutations made before an exception was raised. *)

From Stdlib Require Import ZArith Lia Bool Ascii.
From stdpp Require Import gmap strings list pretty.


Open Scope Z_scope.

(** ** Exceptions and results *)

Inductive exn : Type :=
  | IndexError
  | UnicodeDecodeError
  | OverflowError
  | AttributeError
  | ValueError
  | FileNotFoundError
  | NotADirectoryError
  | FuzzFrontendError (msg : string).

Inductive result (A : Type) : Type :=
  | Ok (a : A)
  | Raise (e : exn).

Arguments Ok {A} a.
Arguments Raise {A} e.

Definition is_ok {A} (r : result A) : bool :=
  match r with Ok _ => true | Raise _ => false end.

(** ** Python's [bytes] methods used by the front end *)

Module Py.

(** [b.startswith(p)] *)
Fixpoint startswith (p s : string) : bool :=
  match p, s with
  | EmptyString, _ => true
  | String _ _, EmptyString => false
  | String a p', String b s' => Ascii.eqb b a && startswith p' s'
  end.

(** Drop the first [n] octets. *)
Fixpoint drop_str (n : nat) (s : string) : string :=
  match n, s with
  | O, _ => s
  | S _, EmptyString => EmptyString
  | S n', String _ s' => drop_str n' s'
  end.

(** The first occurrence of the separator [sep]: what precedes it and what
    follows it. *)
Fixpoint partition (sep s : string) : option (string * string) :=
  if startswith sep s then Some (EmptyString, drop_str (String.length sep) s)
  else match s with
       | EmptyString => None
       | String c s' =>
           match partition sep s' with
           | Some (a, b) => Some (String c a, b)
           | None => None
           end
       end.

(** [s.split(sep, 1)]: at most one cut, so one or two pieces. *)
Definition split1 (sep s : string) : list string :=
  match partition sep s with
  | Some (a, b) => [a; b]
  | None => [s]
  end.

(** [sep in s] *)
Definition contains (sep s : string) : bool :=
  match partition sep s with Some _ => true | None => false end.

(** [l[i]] on a Python list: out of range raises [IndexError]. *)
Definition getitem {A} (l : list A) (i : nat) : result A :=
  match l !! i with
  | Some x => Ok x
  | None => Raise IndexError
  end.

(** ASCII white space as [bytes.strip] and [bytes.split] see it:
    space, tab, line feed, vertical tab, form feed, carriage return. *)
Definition isspace (c : ascii) : bool :=
  let n := nat_of_ascii c in
  ((9 <=? n)%nat && (n <=? 13)%nat) || (n =? 32)%nat.

Fixpoint lstrip_by (f : ascii -> bool) (s : string) : string :=
  match s with
  | EmptyString => EmptyString
  | String c s' => if f c then lstrip_by f s' else s
  end.

Fixpoint rstrip_by (f : ascii -> bool) (s : string) : string :=
  match s with
  | EmptyString => EmptyString
  | String c s' =>
      match rstrip_by f s' with
      | EmptyString => if f c then EmptyString else String c EmptyString
      | r => String c r
      end
  end.

Definition strip_by (f : ascii -> bool) (s : string) : string :=
  rstrip_by f (lstrip_by f s).

(** [s.strip()] *)
Definition strip (s : string) : string := strip_by isspace s.

(** Membership of an octet in a set of octets given as a string. *)
Fixpoint mem_ascii (c : ascii) (chars : string) : bool :=
  match chars with
  | EmptyString => false
  | String d chars' => Ascii.eqb c d || mem_ascii c chars'
  end.

(** [s.strip(chars)] *)
Definition strip_chars (chars s : string) : string :=
  strip_by (fun c => mem_ascii c chars) s.

(** [s.split()]: the maximal runs of octets that are not white space.
    [cur] is the run being read, in reverse. *)
Fixpoint split_ws_aux (cur : list ascii) (s : string) : list string :=
  match s with
  | EmptyString =>
      match cur with
      | [] => []
      | _ => [String.string_of_list_ascii (rev cur)]
      end
  | String c s' =>
      if isspace c then
        match cur with
        | [] => split_ws_aux [] s'
        | _ => String.string_of_list_ascii (rev cur) :: split_ws_aux [] s'
        end
      else split_ws_aux (c :: cur) s'
  end.

Definition split_ws (s : string) : list string := split_ws_aux [] s.

(** Truth value of a [bytes] or [str] object: non-empty. *)
Definition nonempty (s : string) : bool :=
  match s with EmptyString => false | String _ _ => true end.

(** *** UTF-8

    [b.decode()] uses the strict UTF-8 codec.  The well-formed sequences are
    those of the Unicode standard (table 3-7): no overlong form, no
    surrogate, nothing above U+10FFFF. *)

Definition in_range (lo hi : nat) (c : ascii) : bool :=
  let n := nat_of_ascii c in ((lo <=? n)%nat && (n <=? hi)%nat).

Definition cont (c : ascii) : bool := in_range 128 191 c.

Fixpoint utf8_valid_fuel (fuel : nat) (s : string) : bool :=
  match fuel with
  | O => false
  | S fuel' =>
      match s with
      | EmptyString => true
      | String c0 r0 =>
          if in_range 0 127 c0 then utf8_valid_fuel fuel' r0
          else match r0 with
          | EmptyString => false
          | String c1 r1 =>
              if in_range 194 223 c0 then cont c1 && utf8_valid_fuel fuel' r1
              else match r1 with
              | EmptyString => false
              | String c2 r2 =>
                  if in_range 224 224 c0 then
                    in_range 160 191 c1 && cont c2 && utf8_valid_fuel fuel' r2
                  else if in_range 225 236 c0 || in_range 238 239 c0 then
                    cont c1 && cont c2 && utf8_valid_fuel fuel' r2
                  else if in_range 237 237 c0 then
                    in_range 128 159 c1 && cont c2 && utf8_valid_fuel fuel' r2
                  else match r2 with
                  | EmptyString => false
                  | String c3 r3 =>
                      if in_range 240 240 c0 then
                        in_range 144 191 c1 && cont c2 && cont c3
                        && utf8_valid_fuel fuel' r3
                      else if in_range 241 243 c0 then
                        cont c1 && cont c2 && cont c3 && utf8_valid_fuel fuel' r3
                      else if in_range 244 244 c0 then
                        in_range 128 143 c1 && cont c2 && cont c3
                        && utf8_valid_fuel fuel' r3
                      else false
                  end
              end
          end
      end
  end.

(** Every step consumes at least one octet, so the length plus one is fuel
    enough. *)
Definition utf8_valid (s : string) : bool :=
  utf8_valid_fuel (S (String.length s)) s.

(** [b.decode()] *)
Definition decode (s : string) : result string :=
  if utf8_valid s then Ok s else Raise UnicodeDecodeError.

End Py.

(** ** Python's [float]: true division of integers and [repr]

    [self.exec_timeout / 1000] divides two [int] objects with [/], which in
    Python 3 is true division: the result is the binary64 number nearest to
    the exact quotient (ties to even), and [OverflowError] when that is out
    of range.  ["{}".format(x)] of a float is [repr(x)]: the shortest decimal
    string that reads back as [x]. *)

Module PyFloat.

(** A binary64 value: a signed zero, or [±m·2^e] with [0 < m < 2^53] and
    [-1074 <= e <= 971]. *)
Inductive float : Type :=
  | FZero (neg : bool)
  | FFinite (neg : bool) (m e : Z).

Definition emin : Z := -1074.
Definition emax : Z := 971.
Definition prec : Z := 53.

(** [n / (d·2^e)] rounded to the nearest integer, ties to even ([0 < d]). *)
Definition div_round_even (n d e : Z) : Z :=
  let num := if 0 <=? e then n else n * 2 ^ (- e) in
  let den := if 0 <=? e then d * 2 ^ e else d in
  let q := num / den in
  let r := num mod den in
  match 2 * r ?= den with
  | Lt => q
  | Gt => q + 1
  | Eq => if Z.even q then q else q + 1
  end.

(** [a / b] for Python integers with [0 < b]. *)
Definition truediv (a b : Z) : result float :=
  if a =? 0 then Ok (FZero false)
  else
    let n := Z.abs a in
    let k := Z.log2 n - Z.log2 b in
    (* 2^(k-1) < n/b < 2^(k+1) *)
    let e0 := if b * 2 ^ Z.max k 0 <=? n * 2 ^ Z.max (- k) 0
              then k - (prec - 1) else k - prec in
    let e := Z.max e0 emin in
    let q := div_round_even n b e in
    let '(m, e) := if q =? 2 ^ prec then (2 ^ (prec - 1), e + 1) else (q, e) in
    if emax <? e then Raise OverflowError
    else if m =? 0 then Ok (FZero (a <? 0))
    else Ok (FFinite (a <? 0) m e).

(** *** Shortest digits

    The value is [r/s], the distances to the middle of the gaps to the
    neighbouring floats are [mlo/s] below and [mhi/s] above. *)
Record scaled : Type := Scaled { sc_r : Z; sc_s : Z; sc_mhi : Z; sc_mlo : Z }.

Definition scale_of (m e : Z) : scaled :=
  let boundary := (m =? 2 ^ (prec - 1)) && negb (e =? emin) in
  if 0 <=? e then
    if boundary then Scaled (4 * m * 2 ^ e) 4 (2 ^ (e + 1)) (2 ^ e)
    else Scaled (2 * m * 2 ^ e) 2 (2 ^ e) (2 ^ e)
  else
    if boundary then Scaled (4 * m) (2 ^ (2 - e)) 2 1
    else Scaled (2 * m) (2 ^ (1 - e)) 1 1.

(** [10^k <= r/s] *)
Definition pow10_le (k r s : Z) : bool :=
  if 0 <=? k then s * 10 ^ k <=? r else s <=? r * 10 ^ (- k).

Fixpoint raise_k (fuel : nat) (k r s : Z) : Z :=
  match fuel with
  | O => k
  | S fuel' => if pow10_le (k + 1) r s then raise_k fuel' (k + 1) r s else k
  end.

(** The decimal exponent [k] with [10^k <= r/s < 10^(k+1)]: an estimate from
    the binary logarithms that is too small by at most four, then
    corrected upwards. *)
Definition log10_floor (r s : Z) : Z :=
  let l := Z.log2 r - Z.log2 s in
  raise_k 8 ((l - 1) * 30103 / 100000 - 2) r s.

(** Bring [r/s] into [1, 10): divide the value by [10^k]. *)
Definition scale10 (k : Z) (x : scaled) : scaled :=
  if 0 <=? k then Scaled (sc_r x) (sc_s x * 10 ^ k) (sc_mhi x) (sc_mlo x)
  else
    let p := 10 ^ (- k) in
    Scaled (sc_r x * p) (sc_s x) (sc_mhi x * p) (sc_mlo x * p).

(** Add one in the last place of a digit string given in reverse; a carry out
    of the first digit leaves the single digit 1 and raises the exponent. *)
Fixpoint roundoff (rev_digits : list Z) : list Z * bool :=
  match rev_digits with
  | [] => ([1], true)
  | d :: ds => if d =? 9 then roundoff ds else ((d + 1) :: ds, false)
  end.

(** The digit loop of the shortest-output mode.  [acc] holds the digits
    produced so far, last one first.  The result is the digit string (first
    digit first) and whether the decimal exponent has to grow by one. *)
Fixpoint gen_digits (fuel : nat) (even : bool) (acc : list Z)
    (r s mhi mlo : Z) : list Z * bool :=
  match fuel with
  | O => (rev acc, false)
  | S fuel' =>
      let dig := r / s in
      let b := r mod s in
      let j := b ?= mlo in
      let j1 := (b + mhi) ?= s in
      let stop (d : Z) := (rev (d :: acc), false) in
      let up := if dig =? 9
                then let '(ds, carry) := roundoff acc in (rev ds, carry)
                else stop (dig + 1) in
      let same c x := match c, x with
                    | Eq, Eq | Lt, Lt | Gt, Gt => true | _, _ => false end in
      if same j1 Eq && even then
        if dig =? 9 then up else if same j Gt then up else stop dig
      else if same j Lt || (same j Eq && even) then
        if b =? 0 then stop dig
        else if same j1 Gt then
          match 2 * b ?= s with
          | Gt => up
          | Eq => if Z.odd dig then up else stop dig
          | Lt => stop dig
          end
        else stop dig
      else if same j1 Gt then up
      else gen_digits fuel' even (dig :: acc) (10 * b) s (10 * mhi) (10 * mlo)
  end.

(** Digits [d1 d2 ... dn] and the position [decpt] of the decimal point: the
    string denotes [0.d1d2...dn × 10^decpt]. *)
Definition shortest (m e : Z) : list Z * Z :=
  let x := scale_of m e in
  let k := log10_floor (sc_r x) (sc_s x) in
  let y := scale10 k x in
  let '(ds, carry) :=
    gen_digits 800 (Z.even m) [] (sc_r y) (sc_s y) (sc_mhi y) (sc_mlo y) in
  (ds, if carry then k + 2 else k + 1).

(** *** Layout of [repr] *)

Definition digit_char (d : Z) : ascii := ascii_of_nat (48 + Z.to_nat d).

Fixpoint digits_str (ds : list Z) : string :=
  match ds with
  | [] => EmptyString
  | d :: ds' => String (digit_char d) (digits_str ds')
  end.

Fixpoint zeros (n : nat) : string :=
  match n with O => EmptyString | S n' => String "0" (zeros n') end.

Definition layout (ds : list Z) (decpt : Z) : string :=
  let nd := Z.of_nat (length ds) in
  if (decpt <=? -4) || (16 <? decpt) then
    let x := decpt - 1 in
    let mant := match ds with
                | [] => EmptyString
                | [d] => digits_str [d]
                | d :: rest => digits_str [d] +:+ "." +:+ digits_str rest
                end in
    let xs := pretty (Z.abs x) in
    mant +:+ "e" +:+ (if x <? 0 then "-" else "+")
         +:+ (if Z.abs x <? 10 then "0" else "") +:+ xs
  else if decpt <=? 0 then
    "0." +:+ zeros (Z.to_nat (- decpt)) +:+ digits_str ds
  else if nd <=? decpt then
    digits_str ds +:+ zeros (Z.to_nat (decpt - nd)) +:+ ".0"
  else
    digits_str (take (Z.to_nat decpt) ds) +:+ "."
    +:+ digits_str (drop (Z.to_nat decpt) ds).

(** [repr(x)], which is also [str(x)] and ["{}".format(x)]. *)
Definition repr (x : float) : string :=
  match x with
  | FZero neg => if neg then "-0.0" else "0.0"
  | FFinite neg m e =>
      let '(ds, decpt) := shortest m e in
      (if neg then "-" else "") +:+ layout ds decpt
  end.

End PyFloat.

(** ** The object and its world *)

(** The child process as the reader sees it: whether the file object of its
    standard error has been closed, and the lines that are still to come
    out of the pipe before its end of file, in order (each one [bytes], with
    its line terminator).  A read waits for the lines it takes, so that what
    it returns depends on this list only; the empty list is a pipe at end of
    file. *)
Record Proc : Type := MkProc {
  stderr_closed : bool;
  stderr_lines : list string
}.

(** The attributes of a [LibFuzzer] instance that the three methods read or
    write.  Optional attributes ([None] when unset) are options. *)
Record LibFuzzer : Type := MkLibFuzzer {
  binary : option string;
  fuzzer_exe : string;
  blackbox : bool;
  output_test_dir : string;
  push_dir : string;
  pull_dir : string;
  crash_dir : string;
  input_seeds : option string;
  mem_limit : Z;
  max_input_size : Z;
  fuzzer_args : list (string * option string);
  dictionary : option string;
  exec_timeout : option Z;
  post_stats : bool;
  stats : gmap string string;
  proc : option Proc
}.

Definition set_binary (v : option string) (o : LibFuzzer) : LibFuzzer :=
  MkLibFuzzer v (fuzzer_exe o) (blackbox o) (output_test_dir o) (push_dir o)
    (pull_dir o) (crash_dir o) (input_seeds o) (mem_limit o)
    (max_input_size o) (fuzzer_args o) (dictionary o) (exec_timeout o)
    (post_stats o) (stats o) (proc o).

Definition set_fuzzer_exe (v : string) (o : LibFuzzer) : LibFuzzer :=
  MkLibFuzzer (binary o) v (blackbox o) (output_test_dir o) (push_dir o)
    (pull_dir o) (crash_dir o) (input_seeds o) (mem_limit o)
    (max_input_size o) (fuzzer_args o) (dictionary o) (exec_timeout o)
    (post_stats o) (stats o) (proc o).

Definition set_push_dir (v : string) (o : LibFuzzer) : LibFuzzer :=
  MkLibFuzzer (binary o) (fuzzer_exe o) (blackbox o) (output_test_dir o) v
    (pull_dir o) (crash_dir o) (input_seeds o) (mem_limit o)
    (max_input_size o) (fuzzer_args o) (dictionary o) (exec_timeout o)
    (post_stats o) (stats o) (proc o).

Definition set_pull_dir (v : string) (o : LibFuzzer) : LibFuzzer :=
  MkLibFuzzer (binary o) (fuzzer_exe o) (blackbox o) (output_test_dir o)
    (push_dir o) v (crash_dir o) (input_seeds o) (mem_limit o)
    (max_input_size o) (fuzzer_args o) (dictionary o) (exec_timeout o)
    (post_stats o) (stats o) (proc o).

Definition set_crash_dir (v : string) (o : LibFuzzer) : LibFuzzer :=
  MkLibFuzzer (binary o) (fuzzer_exe o) (blackbox o) (output_test_dir o)
    (push_dir o) (pull_dir o) v (input_seeds o) (mem_limit o)
    (max_input_size o) (fuzzer_args o) (dictionary o) (exec_timeout o)
    (post_stats o) (stats o) (proc o).

Definition set_input_seeds (v : option string) (o : LibFuzzer) : LibFuzzer :=
  MkLibFuzzer (binary o) (fuzzer_exe o) (blackbox o) (output_test_dir o)
    (push_dir o) (pull_dir o) (crash_dir o) v (mem_limit o)
    (max_input_size o) (fuzzer_args o) (dictionary o) (exec_timeout o)
    (post_stats o) (stats o) (proc o).

Definition set_dictionary (v : option string) (o : LibFuzzer) : LibFuzzer :=
  MkLibFuzzer (binary o) (fuzzer_exe o) (blackbox o) (output_test_dir o)
    (push_dir o) (pull_dir o) (crash_dir o) (input_seeds o) (mem_limit o)
    (max_input_size o) (fuzzer_args o) v (exec_timeout o)
    (post_stats o) (stats o) (proc o).

Definition set_exec_timeout (v : option Z) (o : LibFuzzer) : LibFuzzer :=
  MkLibFuzzer (binary o) (fuzzer_exe o) (blackbox o) (output_test_dir o)
    (push_dir o) (pull_dir o) (crash_dir o) (input_seeds o) (mem_limit o)
    (max_input_size o) (fuzzer_args o) (dictionary o) v
    (post_stats o) (stats o) (proc o).

Definition set_stats (v : gmap string string) (o : LibFuzzer) : LibFuzzer :=
  MkLibFuzzer (binary o) (fuzzer_exe o) (blackbox o) (output_test_dir o)
    (push_dir o) (pull_dir o) (crash_dir o) (input_seeds o) (mem_limit o)
    (max_input_size o) (fuzzer_args o) (dictionary o) (exec_timeout o)
    (post_stats o) v (proc o).

Definition set_proc (v : option Proc) (o : LibFuzzer) : LibFuzzer :=
  MkLibFuzzer (binary o) (fuzzer_exe o) (blackbox o) (output_test_dir o)
    (push_dir o) (pull_dir o) (crash_dir o) (input_seeds o) (mem_limit o)
    (max_input_size o) (fuzzer_args o) (dictionary o) (exec_timeout o)
    (post_stats o) (stats o) v.

(** What a path names in the file system. *)
Inductive node : Type := Dir | File.

(** The world a method runs in: the object, the file system (a finite map
    from path names to what they name) and the messages logged at level INFO. *)
Record World : Type := MkWorld {
  self : LibFuzzer;
  fs : gmap (list string) node;
  log : list string
}.

(** ** The monad of methods: state and exceptions *)

Definition M (A : Type) : Type := World -> result A * World.

Definition ret {A} (a : A) : M A := fun w => (Ok a, w).

Definition bind {A B} (c : M A) (k : A -> M B) : M B :=
  fun w => match c w with
           | (Ok a, w') => k a w'
           | (Raise e, w') => (Raise e, w')
           end.

Definition raise {A} (e : exn) : M A := fun w => (Raise e, w).

Definition lift {A} (r : result A) : M A := fun w => (r, w).

Definition get_self : M LibFuzzer := fun w => (Ok (self w), w).

Definition upd_self (f : LibFuzzer -> LibFuzzer) : M unit :=
  fun w => (Ok tt, MkWorld (f (self w)) (fs w) (log w)).

Definition get_fs : M (gmap (list string) node) := fun w => (Ok (fs w), w).

Definition put_fs (f : gmap (list string) node) : M unit :=
  fun w => (Ok tt, MkWorld (self w) f (log w)).

(** [L.info(msg)] *)
Definition log_info (msg : string) : M unit :=
  fun w => (Ok tt, MkWorld (self w) (fs w) (log w ++ [msg])).

Declare Scope monad_scope.
Delimit Scope monad_scope with monad.
Notation "x <- c1 ;; c2" := (bind c1 (fun x => c2))
  (at level 100, c1 at next level, right associativity) : monad_scope.
Notation "c1 ;; c2" := (bind c1 (fun _ => c2))
  (at level 100, right associativity) : monad_scope.
Open Scope monad_scope.

(** Truth value of an optional string: set and non-empty. *)
Definition truthy_str (o : option string) : bool :=
  match o with Some s => Py.nonempty s | None => false end.

(** Truth value of an optional integer: set and non-zero. *)
Definition truthy_int (o : option Z) : bool :=
  match o with Some n => negb (n =? 0) | None => false end.

(** ** Paths and the file system *)

Module Os.

Fixpoint endswith_slash (s : string) : bool :=
  match s with
  | EmptyString => false
  | String c EmptyString => Ascii.eqb c "/"
  | String _ s' => endswith_slash s'
  end.

(** [os.path.join(a, b)] on POSIX. *)
Definition path_join (a b : string) : string :=
  if Py.startswith "/" b then b
  else if negb (Py.nonempty a) || endswith_slash a then a +:+ b
  else a +:+ "/" +:+ b.

(** The pieces of a path between separators; [cur] is the piece being
    read.  Empty pieces (doubled or trailing separators) do not count. *)
Fixpoint split_slash (cur s : string) : list string :=
  match s with
  | EmptyString => if Py.nonempty cur then [cur] else []
  | String c s' =>
      if Ascii.eqb c "/" then
        (if Py.nonempty cur then [cur] else []) ++ split_slash EmptyString s'
      else split_slash (cur +:+ String c EmptyString) s'
  end.

(** The name under which the file system knows a path: its components, with
    the root as first component of an absolute path.  (The special names
    [.] and [..] are not interpreted.) *)
Definition components (p : string) : list string :=
  (if Py.startswith "/" p then ["/"] else []) ++ split_slash EmptyString p.

(** [os.path.isdir(p)] *)
Definition isdir (p : string) (f : gmap (list string) node) : bool :=
  match f !! components p with Some Dir => true | _ => false end.

(** [k] without the leading [d], when [k] starts with [d]. *)
Fixpoint strip_prefix (d k : list string) : option (list string) :=
  match d, k with
  | [], _ => Some k
  | x :: d', y :: k' => if String.eqb x y then strip_prefix d' k' else None
  | _ :: _, [] => None
  end.

(** The name of [k] inside directory [d] when [k] is an entry of [d]. *)
Definition child_name (d k : list string) : option string :=
  match strip_prefix d k with
  | Some [name] => Some name
  | _ => None
  end.

(** [os.listdir(d)]: the names of the entries of [d] (in no particular
    order). *)
Definition listdir (d : string) (f : gmap (list string) node)
    : result (list string) :=
  match f !! components d with
  | Some Dir =>
      Ok (omap (fun kv => child_name (components d) (fst kv)) (map_to_list f))
  | Some File => Raise NotADirectoryError
  | None => Raise FileNotFoundError
  end.

(** Create one directory unless the name is taken. *)
Definition mkdir_if_absent (f : gmap (list string) node) (k : list string)
    : gmap (list string) node :=
  match f !! k with
  | None => <[k := Dir]> f
  | Some _ => f
  end.

(** The non-empty prefixes of a list of components, shortest first, the
    list itself last. *)
Fixpoint prefixes (pre k : list string) : list (list string) :=
  match k with
  | [] => []
  | x :: k' => (pre ++ [x]) :: prefixes (pre ++ [x]) k'
  end.

(** Create a directory and its missing ancestors. *)
Definition makedirs (p : string) (f : gmap (list string) node)
    : gmap (list string) node :=
  foldl mkdir_if_absent f (prefixes [] (components p)).

(** An invariant of file systems: what contains an entry is a directory. *)
Definition fs_wf (f : gmap (list string) node) : Prop :=
  forall (k : list string) (x : string),
    k <> [] -> is_Some (f !! (k ++ [x])) -> f !! k = Some Dir.

End Os.

(** ** The helpers inherited from the base front end

    [check_required_directories] and [setup_new_session] are methods of
    [FuzzerFrontend] in [deepstate.core], which is not part of the sources at
    hand. *)

(** Modelled from the spec: [FuzzerFrontend.check_required_directories] is
    missing.  The spec (4.1, step 2): verify that the directories exist;
    fail with a configuration error ("missing required directory") if one is
    absent; do not create anything. *)
Fixpoint check_required_directories (dirs : list string) : M unit :=
  match dirs with
  | [] => ret tt
  | d :: rest =>
      f <- get_fs ;;
      if Os.isdir d f then check_required_directories rest
      else raise (FuzzFrontendError "missing required directory")
  end.

(** Modelled from the spec: [FuzzerFrontend.setup_new_session] is missing.
    The spec (4.1, step 3): create the directories (and any missing parent
    directories) if absent. *)
Fixpoint setup_new_session (dirs : list string) : M unit :=
  match dirs with
  | [] => ret tt
  | d :: rest =>
      f <- get_fs ;;
      put_fs (Os.makedirs d f) ;;
      setup_new_session rest
  end.

(** ** [LibFuzzer.pre_exec] *)

Section PreExec.

(** [os.path.abspath], which depends on the working directory of the
    process. *)
Variable abspath : string -> string.

(** [super().pre_exec()], the checks of the base front end (they may run the
    compiler and may fail). *)
Variable super_pre_exec : M unit.

(** Lines 56 to 69: the harness binary becomes the fuzzer executable, and
    blackbox mode is refused. *)
Definition pre_exec_checks : M unit :=
  o <- get_self ;;
  (if truthy_str (binary o) then
     upd_self (set_binary (option_map abspath (binary o))) ;;
     o <- get_self ;;
     upd_self (set_fuzzer_exe (default EmptyString (binary o)))
   else ret tt) ;;
  super_pre_exec ;;
  o <- get_self ;;
  if negb (truthy_str (binary o)) then raise (FuzzFrontendError "Binary not set.")
  else
    upd_self (set_binary (option_map abspath (binary o))) ;;
    o <- get_self ;;
    upd_self (set_fuzzer_exe (default EmptyString (binary o))) ;;
    o <- get_self ;;
    if blackbox o
    then raise (FuzzFrontendError "Blackbox fuzzing is not supported by libFuzzer.")
    else ret tt.

Definition resume_message (push : string) : string :=
  "Resuming fuzzing using seeds from " +:+ push
  +:+ " (skipping --input_seeds option).".

(** Lines 71 to 83: the directories of the session, and the choice between
    resuming and starting afresh. *)
Definition pre_exec_layout : M unit :=
  o <- get_self ;;
  let sync_dir := Os.path_join (output_test_dir o) "sync_dir" in
  let main_dir := Os.path_join (output_test_dir o) "the_fuzzer" in
  upd_self (set_push_dir (Os.path_join sync_dir "queue")) ;;
  o <- get_self ;;
  upd_self (set_pull_dir (push_dir o)) ;;
  upd_self (set_crash_dir (Os.path_join main_dir "crashes")) ;;
  o <- get_self ;;
  f <- get_fs ;;
  entries <- lift (Os.listdir (output_test_dir o) f) ;;
  if (0 <? Z.of_nat (length entries)) then
    check_required_directories [push_dir o; pull_dir o; crash_dir o] ;;
    upd_self (set_input_seeds None) ;;
    o <- get_self ;;
    log_info (resume_message (push_dir o))
  else
    setup_new_session [pull_dir o; crash_dir o].

Definition pre_exec : M unit :=
  pre_exec_checks ;; pre_exec_layout.

End PreExec.

(** ** [LibFuzzer.cmd] *)

(** ['-{}={}'.format(key, val)], or ['-{}'.format(key)] for a bare flag. *)
Definition passthrough_flag (kv : string * option string) : string :=
  match snd kv with
  | Some val => "-" +:+ fst kv +:+ "=" +:+ val
  | None => "-" +:+ fst kv
  end.

(** The property [cmd]: the list [cmd_list] grows by [extend] and [append],
    statement after statement.  The only expression that can raise is the
    division of the timeout. *)
Definition cmd (o : LibFuzzer) : result (list string) :=
  let cmd_list : list string := [] in
  (* guaranteed arguments *)
  let cmd_list := cmd_list ++ [
    "-rss_limit_mb=" +:+ pretty (mem_limit o);
    "-max_len=" +:+ pretty (max_input_size o);
    "-artifact_prefix=" +:+ (crash_dir o +:+ "/");
    "-workers=" +:+ pretty 1;
    "-reload=1";
    "-runs=-1" ] in
  let cmd_list :=
    foldl (fun acc kv => acc ++ [passthrough_flag kv]) cmd_list (fuzzer_args o) in
  (* optional arguments *)
  let cmd_list :=
    if truthy_str (dictionary o)
    then cmd_list ++ ["-dict=" +:+ default EmptyString (dictionary o)]
    else cmd_list in
  match
    (if truthy_int (exec_timeout o) then
       match PyFloat.truediv (default 0 (exec_timeout o)) 1000 with
       | Ok secs => Ok (cmd_list ++ ["-timeout=" +:+ PyFloat.repr secs])
       | Raise e => Raise e
       end
     else Ok cmd_list)
  with
  | Raise e => Raise e
  | Ok cmd_list =>
      let cmd_list :=
        if post_stats o
        then cmd_list ++ ["-print_final_stats=" +:+ pretty 1]
        else cmd_list in
      (* positional arguments *)
      let cmd_list := cmd_list ++ [push_dir o] in
      let cmd_list :=
        if truthy_str (input_seeds o)
        then cmd_list ++ [default EmptyString (input_seeds o)]
        else cmd_list in
      Ok cmd_list
  end.

(** *** The four groups of the argument vector *)

Definition required_flags (o : LibFuzzer) : list string :=
  [ "-rss_limit_mb=" +:+ pretty (mem_limit o);
    "-max_len=" +:+ pretty (max_input_size o);
    "-artifact_prefix=" +:+ crash_dir o +:+ "/";
    "-workers=1";
    "-reload=1";
    "-runs=-1" ].

Definition passthrough_flags (o : LibFuzzer) : list string :=
  map passthrough_flag (fuzzer_args o).

(** The timeout in seconds as it is printed, when the timeout is set. *)
Definition timeout_value (o : LibFuzzer) : result (option string) :=
  match exec_timeout o with
  | None => Ok None
  | Some n =>
      if n =? 0 then Ok None
      else match PyFloat.truediv n 1000 with
           | Ok secs => Ok (Some (PyFloat.repr secs))
           | Raise e => Raise e
           end
  end.

Definition dict_flag (o : LibFuzzer) : list string :=
  match dictionary o with
  | Some d => if Py.nonempty d then ["-dict=" +:+ d] else []
  | None => []
  end.

Definition timeout_flag (t : option string) : list string :=
  match t with
  | Some secs => ["-timeout=" +:+ secs]
  | None => []
  end.

Definition stats_flag (o : LibFuzzer) : list string :=
  if post_stats o then ["-print_final_stats=1"] else [].

Definition optional_flags (o : LibFuzzer) (t : option string) : list string :=
  dict_flag o ++ timeout_flag t ++ stats_flag o.

Definition seed_args (o : LibFuzzer) : list string :=
  match input_seeds o with
  | Some s => if Py.nonempty s then [s] else []
  | None => []
  end.

Definition positional_args (o : LibFuzzer) : list string :=
  push_dir o :: seed_args o.

(** ** [LibFuzzer.populate_stats] *)

(** [f.readlines(hint)] of a binary stream: lines are taken one by one, and
    no further line is taken once the sizes of those taken exceed [hint] in
    total.  [total] is the size taken before.  The result is the lines taken
    and the lines left. *)
Fixpoint readlines_from (hint total : Z) (lines : list string)
    : list string * list string :=
  match lines with
  | [] => ([], [])
  | line :: rest =>
      let n := Z.of_nat (String.length line) in
      if hint - total <? n then ([line], rest)
      else
        let '(taken, remaining) := readlines_from hint (total + n) rest in
        (line :: taken, remaining)
  end.

Definition readlines (hint : Z) (lines : list string) : list string * list string :=
  readlines_from hint 0 lines.

(** [self.proc.stderr.readlines(hint)].  The waiting of the read is not
    modelled: the lines taken are those the read returns once it has waited
    for them, and it returns fewer than the hint asks for at end of file
    only. *)
Definition stderr_readlines (hint : Z) : M (list string) :=
  o <- get_self ;;
  match proc o with
  | None => raise AttributeError
  | Some p =>
      if stderr_closed p then raise ValueError
      else
        let '(taken, remaining) := readlines hint (stderr_lines p) in
        upd_self (set_proc (Some (MkProc (stderr_closed p) remaining))) ;;
        ret taken
  end.

(** [self.stats[key] = value] *)
Definition set_stat (key value : string) : M unit :=
  upd_self (fun o => set_stats (<[key := value]> (stats o)) o).

Definition LF : string := String (ascii_of_nat 10) EmptyString.

(** Lines 155 to 162: a line [key: value] of a block, whose key is one of
    the three metrics, is stored under the name the front ends share. *)
Definition store_metric (line : string) : M unit :=
  if Py.contains ": " line then
    let kv := Py.split1 ": " line in
    key <- lift (Py.getitem kv 0) ;;
    value <- lift (Py.getitem kv 1) ;;
    if String.eqb key "exec/s" then
      v <- lift (Py.decode value) ;; set_stat "execs_per_sec" v
    else if String.eqb key "units" then
      v <- lift (Py.decode value) ;; set_stat "paths_total" v
    else if String.eqb key "cov" then
      v <- lift (Py.decode value) ;; set_stat "bitmap_cvg" v
    else ret tt
  else ret tt.

(** The inner loop (lines 149 to 162) over the lines of one more read.  It
    returns the value of [done_reading] when the loop is left. *)
Fixpoint read_block (done_reading : bool) (lines : list string) : M bool :=
  match lines with
  | [] => ret done_reading
  | line :: rest =>
      part <- lift (Py.getitem (Py.split1 ":" line) 1) ;;
      let line := Py.strip part in
      if negb (Py.nonempty line) || String.eqb line LF then ret true
      else
        store_metric line ;;
        read_block done_reading rest
  end.

(** The outer loop (lines 139 to 162) over the lines of the first read. *)
Fixpoint scan_lines (done_reading : bool) (lines : list string) : M unit :=
  match lines with
  | [] => ret tt
  | line :: rest =>
      if done_reading then ret tt
      else if Py.startswith "EXTERNAL: " line then
        part <- lift (Py.getitem (Py.split1 ":" line) 1) ;;
        let line := Py.strip part in
        if Py.startswith "#" line then
          (* new event code *)
          tok <- lift (Py.getitem (Py.split_ws line) 0) ;;
          v <- lift (Py.decode (Py.strip_chars "#" tok)) ;;
          set_stat "execs_done" v ;;
          block <- stderr_readlines 100 ;;
          done_reading <- read_block done_reading block ;;
          scan_lines done_reading rest
        else scan_lines done_reading rest
      else scan_lines done_reading rest
  end.

(** The method after the call of the base method (lines 133 to 162). *)
Definition read_stats : M unit :=
  o <- get_self ;;
  match proc o with
  | None => ret tt
  | Some p =>
      if stderr_closed p then ret tt
      else
        let done_reading := false in
        lines <- stderr_readlines 100 ;;
        scan_lines done_reading lines
  end.

Section PopulateStats.

(** [super().populate_stats()], the statistics the base front end maintains
    by itself. *)
Variable super_populate_stats : M unit.

Definition populate_stats : M unit :=
  super_populate_stats ;; read_stats.

End PopulateStats.


(** ** Predicates of the statements *)

(** A configuration whose timeout, if any, is below [2^1000] milliseconds. *)
Definition valid_config (o : LibFuzzer) : Prop :=
  match exec_timeout o with
  | Some n => Z.abs n < 2 ^ 1000
  | None => True
  end.

(** The names of the flags that [cmd] always emits. *)
Definition required_flag_names : list string :=
  ["rss_limit_mb"; "max_len"; "artifact_prefix"; "workers"; "reload"; "runs"].

(** ** Sample objects *)

(** A front end after [pre_exec] on a fresh output directory [out], with a
    timeout of 1500 milliseconds. *)
Definition sample : LibFuzzer :=
  MkLibFuzzer (Some "/work/harness") "/work/harness" false "out"
    "out/sync_dir/queue" "out/sync_dir/queue" "out/the_fuzzer/crashes"
    (Some "seeds") 50 8192 [] None (Some 1500) false ∅ None.

(** The same with a dictionary, final statistics and two passthrough
    arguments. *)
Definition sample_full : LibFuzzer :=
  MkLibFuzzer (Some "/work/harness") "/work/harness" false "out"
    "out/sync_dir/queue" "out/sync_dir/queue" "out/the_fuzzer/crashes"
    (Some "seeds") 50 8192 [("use_counters", Some "1"); ("help", None)]
    (Some "fuzz.dict") (Some 1500) true ∅ None.

(** A passthrough argument named like a required flag. *)
Definition sample_collision : LibFuzzer :=
  MkLibFuzzer (Some "/work/harness") "/work/harness" false "out"
    "out/sync_dir/queue" "out/sync_dir/queue" "out/the_fuzzer/crashes"
    None 50 8192 [("workers", Some "4")] None None false ∅ None.

(** A name of a directory entry: no separator in it. *)
Fixpoint no_slash (s : string) : bool :=
  match s with
  | EmptyString => true
  | String c s' => negb (Ascii.eqb c "/") && no_slash s'
  end.

(** The container of a path name, for names of two components or more. *)
Definition parent (k : list string) : option (list string) :=
  match k with
  | [] | [_] => None
  | _ => Some (removelast k)
  end.

(** The invariant [Os.fs_wf] as a test. *)
Definition fs_wfb (f : gmap (list string) node) : bool :=
  forallb (fun kv => match parent (fst kv) with
                     | Some k => match f !! k with Some Dir => true | _ => false end
                     | None => true
                     end) (map_to_list f).

(** The directories of the session under [out]. *)
Definition push_path (out : string) : string :=
  Os.path_join (Os.path_join out "sync_dir") "queue".

Definition crash_path (out : string) : string :=
  Os.path_join (Os.path_join out "the_fuzzer") "crashes".

(** The attributes of the object once the three directories are computed. *)
Definition with_paths (o : LibFuzzer) : LibFuzzer :=
  set_crash_dir (crash_path (output_test_dir o))
    (set_pull_dir (push_path (output_test_dir o))
       (set_push_dir (push_path (output_test_dir o)) o)).


(** A stand-in for [os.path.abspath] with working directory [/work]. *)
Definition sample_abspath (p : string) : string :=
  if Py.startswith "/" p then p else "/work/" +:+ p.

(** A front end before [pre_exec]: harness [harness], output directory
    [out], a seed directory. *)
Definition unprepared : LibFuzzer :=
  MkLibFuzzer (Some "harness") "clang++" false "out" "" "" ""
    (Some "seeds") 50 8192 [] None (Some 1500) false ∅ None.

(** An empty output directory. *)
Definition world_fresh : World :=
  MkWorld unprepared {[ ["out"] := Dir ]} [].

(** The output directory of an earlier session. *)
Definition world_resume : World :=
  MkWorld unprepared
    (<[ ["out"; "sync_dir"; "queue"] := Dir ]>
       (<[ ["out"; "sync_dir"] := Dir ]>
          (<[ ["out"; "the_fuzzer"; "crashes"] := Dir ]>
             (<[ ["out"; "the_fuzzer"] := Dir ]>
                {[ ["out"] := Dir ]}))))
    [].

(** An output directory that holds something, but not the crash
    directory. *)
Definition world_broken : World :=
  MkWorld unprepared
    (<[ ["out"; "sync_dir"; "queue"] := Dir ]>
       (<[ ["out"; "sync_dir"] := Dir ]>
          {[ ["out"] := Dir ]}))
    [].

(** The object once the sanity checks of [pre_exec] have passed. *)
Definition checked : LibFuzzer :=
  set_fuzzer_exe "/work/harness" (set_binary (Some "/work/harness") unprepared).

(** ** Sample streams

    Lines as the harness writes them on standard error under DeepState. *)

Definition l_seed : string := "EXTERNAL: INFO: Seed: 3918206239" +:+ LF.
Definition l_mods : string :=
  "EXTERNAL: INFO: Loaded 1 modules (8 inline 8-bit counters)" +:+ LF.
Definition l_init : string :=
  "EXTERNAL: #2 INITED cov: 3 ft: 3 corp: 1/1b exec/s: 0 rss: 26Mb" +:+ LF.
Definition l_pulse : string :=
  "EXTERNAL: #4096 pulse cov: 120 ft: 310 corp: 17/1Kb exec/s: 512 rss: 31Mb" +:+ LF.
Definition l_rate : string := "EXTERNAL: exec/s: 512" +:+ LF.
Definition l_units : string := "EXTERNAL: units: 17" +:+ LF.
Definition l_cov : string := "EXTERNAL: cov: 120" +:+ LF.
Definition l_end : string := "EXTERNAL: " +:+ LF.

(** Lines that do not come through DeepState's logger: no marker. *)
Definition l_abort : string :=
  "terminate called without an active exception" +:+ LF.
Definition l_foreign_cov : string := "INFO: cov: 99" +:+ LF.
Definition l_foreign_blank : string := "WARNING:" +:+ LF.

(** A running front end whose pipe holds the given lines. *)
Definition running (lines : list string) : World :=
  MkWorld (set_proc (Some (MkProc false lines)) sample) ∅ [].

(** The statistics and the pipe after a call. *)
Definition stats_of (w : World) : list (string * string) :=
  map_to_list (stats (self w)).

Definition pipe_of (w : World) : list string :=
  match proc (self w) with
  | Some p => stderr_lines p
  | None => []
  end.

(** [int(s)] for a string of decimal digits. *)
Fixpoint int_of_digits (acc : Z) (s : string) : option Z :=
  match s with
  | EmptyString => Some acc
  | String c s' =>
      let n := Z.of_nat (nat_of_ascii c) in
      if (48 <=? n) && (n <=? 57) then int_of_digits (10 * acc + (n - 48)) s'
      else None
  end.

Definition int_of_str (s : string) : option Z :=
  match s with
  | EmptyString => None
  | _ => int_of_digits 0 s
  end.

(** ** The two kinds of lines the reader reacts to *)

(** The counter of a line that starts a block (lines 143 to 147): the text
    between the marker and the first white space, without its number
    signs.  [Ok None] for any other line. *)
Definition counter_of (line : string) : result (option string) :=
  if Py.startswith "EXTERNAL: " line then
    match Py.getitem (Py.split1 ":" line) 1 with
    | Raise e => Raise e
    | Ok part =>
        if Py.startswith "#" (Py.strip part) then
          match Py.getitem (Py.split_ws (Py.strip part)) 0 with
          | Raise e => Raise e
          | Ok tok =>
              match Py.decode (Py.strip_chars "#" tok) with
              | Raise e => Raise e
              | Ok v => Ok (Some v)
              end
          end
        else Ok None
    end
  else Ok None.

(** A line that ends a block (lines 150 to 153): nothing but white space
    after its first colon. *)
Definition block_end (line : string) : bool :=
  match Py.getitem (Py.split1 ":" line) 1 with
  | Ok part =>
      negb (Py.nonempty (Py.strip part)) || String.eqb (Py.strip part) LF
  | Raise _ => false
  end.

Definition execs_done (w : World) : option string :=
  stats (self w) !! "execs_done".

(** The world once a block has been opened: the counter stored, the lines
    of the second read taken from the pipe. *)
Definition block_opened (v : string) (remaining : list string) (w : World) : World :=
  MkWorld
    (set_proc (Some (MkProc false remaining))
       (set_stats (<["execs_done" := v]> (stats (self w))) (self w)))
    (fs w) (log w).

(** What the inner loop leaves alone: the pipe, and every statistic but the
    three metrics. *)
Definition same_but_metrics (w w' : World) : Prop :=
  proc (self w') = proc (self w) /\ execs_done w' = execs_done w.

(** Two blocks in the lines of one pair of reads: the second block starts
    after the end of the first. *)
Definition stream_two_blocks : list string :=
  [l_seed; l_mods; l_init; l_rate; l_end; l_pulse; l_rate; l_end].

(** The harness is run again after 4096 executions: its counter restarts. *)
Definition stream_restart : list string :=
  [l_seed; l_mods; l_pulse; l_rate; l_units; l_cov; l_end;
   l_seed; l_mods; l_init; l_cov; l_end].

(** The values assigned to [self.stats["execs_done"]] while the outer loop
    runs over [lines], in order: the counters of the lines that start a
    block and that the loop reaches.  The loop is left when a counter cannot
    be read, when the read of a block raises, and when a block has ended. *)
Fixpoint counters_stored (done_reading : bool) (lines : list string) (w : World)
    : list string :=
  match lines with
  | [] => []
  | line :: rest =>
      if done_reading then []
      else
        match counter_of line with
        | Ok (Some v) =>
            v :: match (set_stat "execs_done" v ;;
                        block <- stderr_readlines 100 ;;
                        read_block false block) w with
                 | (Ok done_reading, w1) => counters_stored done_reading rest w1
                 | (Raise _, _) => []
                 end
        | Ok None => counters_stored false rest w
        | Raise _ => []
        end
  end.

(** The lines of the first read of a call, and the values assigned to
    [execs_done] during the call. *)
Definition first_read (w : World) : list string :=
  match proc (self w) with
  | Some p => if stderr_closed p then [] else fst (readlines 100 (stderr_lines p))
  | None => []
  end.

Definition counters_of_call (w : World) : list string :=
  match proc (self w) with
  | Some p =>
      if stderr_closed p then []
      else
        counters_stored false (fst (readlines 100 (stderr_lines p)))
          (MkWorld
             (set_proc (Some (MkProc false (snd (readlines 100 (stderr_lines p)))))
                (self w))
             (fs w) (log w))
  | None => []
  end.

(** [int(s)] of an optional text. *)
Definition int_of_opt (o : option string) : option Z :=
  match o with
  | Some s => int_of_str s
  | None => None
  end.

(** ** What a call of [populate_stats] may change *)

(** The names under which the reader stores what it finds. *)
Definition metric_keys : list string :=
  ["execs_done"; "execs_per_sec"; "paths_total"; "bitmap_cvg"].

(** The pipe of [w'] is what is left of the pipe of [w] after some lines
    have been taken from its front; the process is the same otherwise. *)
Definition pipe_advanced (w w' : World) : Prop :=
  match proc (self w), proc (self w') with
  | Some p, Some p' =>
      stderr_closed p' = stderr_closed p /\
      suffix (stderr_lines p') (stderr_lines p)
  | None, None => True
  | _, _ => False
  end.

(** From [w] to [w']: the file system and the log are the same, the object
    differs by its statistics and its pipe only, the only statistics that
    differ are the four metrics, no statistic is removed, and the pipe has
    only been read. *)
Definition stats_step (w w' : World) : Prop :=
  fs w' = fs w /\
  log w' = log w /\
  self w' = set_proc (proc (self w')) (set_stats (stats (self w')) (self w)) /\
  (forall k : string, ~ In k metric_keys ->
     stats (self w') !! k = stats (self w) !! k) /\
  (forall k : string, is_Some (stats (self w) !! k) ->
     is_Some (stats (self w') !! k)) /\
  pipe_advanced w w'.

(** The world when one read has been made and nothing else. *)
Definition after_one_read (w : World) (p : Proc) : World :=
  MkWorld
    (set_proc (Some (MkProc false (snd (readlines 100 (stderr_lines p)))))
       (self w))
    (fs w) (log w).

(** A pipe with something in it, not closed. *)
Definition world_two_blocks : World := running stream_two_blocks.

(** No child process yet. *)
Definition world_idle : World := MkWorld sample ∅ [].

(** Lines of the log of the harness, none of which starts a block. *)
Definition stream_chatter : list string :=
  [l_seed; l_abort; l_mods; l_foreign_cov; l_rate].

(** ** Lines that cannot make the reader raise *)

(** Octets below 128 only. *)
Fixpoint all_ascii (s : string) : bool :=
  match s with
  | EmptyString => true
  | String c s' => (nat_of_ascii c <=? 127)%nat && all_ascii s'
  end.

(** A line with a colon in it, in ASCII. *)
Definition plain_line (line : string) : bool :=
  Py.contains ":" line && all_ascii line.

(** The lines of [stream_two_blocks] and of [stream_restart] are plain. *)
Definition world_restart : World := running stream_restart.

(** ** Well-formed lines of a block *)

(** A word in ASCII: no white space in it. *)
Fixpoint token (s : string) : bool :=
  match s with
  | EmptyString => true
  | String c s' =>
      (nat_of_ascii c <=? 127)%nat && negb (Py.isspace c) && token s'
  end.

(** No number sign in the text. *)
Fixpoint no_hash (s : string) : bool :=
  match s with
  | EmptyString => true
  | String c s' => negb (Ascii.eqb c "#") && no_hash s'
  end.

(** The keys of the harness and the names they are stored under. *)
Definition metric_names : list (string * string) :=
  [("exec/s", "execs_per_sec"); ("units", "paths_total"); ("cov", "bitmap_cvg")].

(** The world with one more statistic. *)
Definition with_stat (name v : string) (w : World) : World :=
  MkWorld (set_stats (<[name := v]> (stats (self w))) (self w)) (fs w) (log w).

(** ** [LibFuzzer.compile] *)

(** [s.split(sep)] for a separator of one character: the pieces between the
    occurrences of the separator, empty pieces included.  [cur] is the piece
    being read. *)
Fixpoint split_char (sep : ascii) (cur s : string) : list string :=
  match s with
  | EmptyString => [cur]
  | String c s' =>
      if Ascii.eqb c sep then cur :: split_char sep EmptyString s'
      else split_char sep (cur +:+ String c EmptyString) s'
  end.

(** [sep.join(l)] *)
Fixpoint join (sep : string) (l : list string) : string :=
  match l with
  | [] => EmptyString
  | [x] => x
  | x :: l' => x +:+ sep +:+ join sep l'
  end.

(** Lines 45 to 47: the flags for the compiler.  [compiler_args] is the
    attribute [self.compiler_args], a string or [None]. *)
Definition compile_flags (compiler_args : option string) : list string :=
  let flags := ["-ldeepstate_LF"; "-fsanitize=fuzzer,undefined"] in
  if truthy_str compiler_args
  then flags ++ split_char " " EmptyString (default EmptyString compiler_args)
  else flags.

Section Compile.

(** [super().compile(lib_path, flags, out_test_name)], the compilation of
    the base front end. *)
Variable super_compile : string -> list string -> string -> M unit.

Definition compile (compiler_args : option string) (out_test_name : string)
    : M unit :=
  let lib_path := "/usr/local/lib/libdeepstate_LF.a" in
  let flags := compile_flags compiler_args in
  super_compile lib_path flags out_test_name.

End Compile.

(** No space in the text. *)
Fixpoint no_space (s : string) : bool :=
  match s with
  | EmptyString => true
  | String c s' => negb (Ascii.eqb c " ") && no_space s'
  end.

(** ** More on [cmd] and [pre_exec] *)

(** A timeout that no float can hold once divided. *)
Definition sample_overlong : LibFuzzer := set_exec_timeout (Some (10 ^ 320)) sample.

(** Lines 56 to 58: the harness, when given, is the fuzzer executable. *)
Definition adopt_binary (abspath : string -> string) (w : World) : World :=
  if truthy_str (binary (self w)) then
    MkWorld
      (set_fuzzer_exe (default EmptyString (option_map abspath (binary (self w))))
         (set_binary (option_map abspath (binary (self w))) (self w)))
      (fs w) (log w)
  else w.

(** A front end asked for blackbox fuzzing. *)
Definition world_blackbox : World :=
  MkWorld
    (MkLibFuzzer (Some "harness") "clang++" true "out" "" "" ""
       (Some "seeds") 50 8192 [] None (Some 1500) false ∅ None)
    {[ ["out"] := Dir ]} [].

(** A whole block in fewer than 100 octets, then the end of the stream: the
    first read takes it all. *)
Definition stream_short : list string :=
  ["EXTERNAL: #42" +:+ LF; "EXTERNAL: exec/s: 1000" +:+ LF; "EXTERNAL: " +:+ LF].
(** * Properties of [cmd] *)

Lemma foldl_snoc_map {A B} (f : A -> B) (l : list A) (init : list B) :
  foldl (fun acc x => acc ++ [f x]) init l = init ++ map f l.
Proof.
  revert init. induction l as [|x l IH]; intros init; simpl.
  - by rewrite app_nil_r.
  - rewrite IH. by rewrite <- app_assoc.
Qed.

Lemma pretty_one : pretty 1 = "1".
Proof. reflexivity. Qed.

(** The argument vector is the concatenation of the four groups; the
    builder raises exactly when the timeout cannot be divided. *)
Lemma cmd_groups (o : LibFuzzer) :
  cmd o =
  match timeout_value o with
  | Ok t => Ok (required_flags o ++ passthrough_flags o
                ++ optional_flags o t ++ positional_args o)
  | Raise e => Raise e
  end.
Proof.
  unfold cmd, timeout_value, truthy_int, truthy_str. rewrite foldl_snoc_map.
  rewrite pretty_one.
  unfold optional_flags, positional_args, dict_flag, seed_args, stats_flag,
    passthrough_flags, required_flags.
  destruct (exec_timeout o) as [n|]; simpl;
    [destruct (n =? 0); simpl; [|destruct (PyFloat.truediv n 1000); simpl] | ];
    try reflexivity;
    destruct (dictionary o) as [d|]; simpl; try (destruct (Py.nonempty d));
    destruct (post_stats o); simpl;
    destruct (input_seeds o) as [s|]; simpl; try (destruct (Py.nonempty s));
    simpl; repeat (rewrite <- app_assoc; simpl); reflexivity.
Qed.

(** A timeout below [2^1000] milliseconds can always be divided: the quotient
    is far inside the range of binary64. *)
Lemma truediv_1000_in_range (n : Z) :
  Z.abs n < 2 ^ 1000 -> exists x, PyFloat.truediv n 1000 = Ok x.
Proof.
  intros Hn. unfold PyFloat.truediv.
  destruct (n =? 0) eqn:Hz; [eauto |].
  apply Z.eqb_neq in Hz.
  assert (Hl : Z.log2 (Z.abs n) < 1000)
    by (apply Z.log2_lt_pow2; lia).
  assert (H9 : Z.log2 1000 = 9) by reflexivity.
  rewrite H9.
  set (k := Z.log2 (Z.abs n) - 9).
  set (e0 := if _ <=? _ then _ else _).
  assert (He0 : e0 <= k - 52).
  { unfold e0, PyFloat.prec. destruct (_ <=? _); lia. }
  set (e := Z.max e0 PyFloat.emin).
  assert (He : e <= 938) by (unfold e, PyFloat.emin, k in *; lia).
  set (q := PyFloat.div_round_even _ _ _).
  destruct (q =? 2 ^ PyFloat.prec).
  - replace (PyFloat.emax <? e + 1) with false
      by (symmetry; apply Z.ltb_ge; unfold PyFloat.emax; lia).
    destruct (_ =? 0); eauto.
  - replace (PyFloat.emax <? e) with false
      by (symmetry; apply Z.ltb_ge; unfold PyFloat.emax; lia).
    destruct (q =? 0); eauto.
Qed.

Lemma timeout_value_in_range (o : LibFuzzer) :
  match exec_timeout o with Some n => Z.abs n < 2 ^ 1000 | None => True end ->
  exists t, timeout_value o = Ok t.
Proof.
  unfold timeout_value. destruct (exec_timeout o) as [n|]; [|eauto].
  intros Hn. destruct (n =? 0); [eauto |].
  destruct (truediv_1000_in_range n Hn) as [x ->]. eauto.
Qed.

(** C7.  For every valid configuration the argument vector is made of four
    contiguous groups, in this order: the six required flags (memory limit,
    maximal input length, artifact prefix with a trailing separator, worker
    count 1, reload, unbounded runs), the passthrough flags in the order of
    [fuzzer_args], the optional flags that are set (dictionary, timeout,
    final statistics), and the positional arguments (the push directory,
    then the seeds if any). *)
Theorem cmd_four_groups (o : LibFuzzer) :
  valid_config o ->
  exists t : option string,
    timeout_value o = Ok t /\
    cmd o = Ok ([ "-rss_limit_mb=" +:+ pretty (mem_limit o);
                  "-max_len=" +:+ pretty (max_input_size o);
                  "-artifact_prefix=" +:+ crash_dir o +:+ "/";
                  "-workers=1";
                  "-reload=1";
                  "-runs=-1" ]
                ++ map passthrough_flag (fuzzer_args o)
                ++ (dict_flag o ++ timeout_flag t ++ stats_flag o)
                ++ push_dir o :: seed_args o).
Proof.
  intros Hv. destruct (timeout_value_in_range o Hv) as [t Ht].
  exists t. split; [exact Ht |].
  rewrite cmd_groups, Ht. reflexivity.
Qed.

Lemma cmd_four_groups_witness :
  valid_config sample_full /\
  exists t : option string,
    timeout_value sample_full = Ok t /\
    cmd sample_full =
      Ok ([ "-rss_limit_mb=" +:+ pretty (mem_limit sample_full);
            "-max_len=" +:+ pretty (max_input_size sample_full);
            "-artifact_prefix=" +:+ crash_dir sample_full +:+ "/";
            "-workers=1";
            "-reload=1";
            "-runs=-1" ]
          ++ map passthrough_flag (fuzzer_args sample_full)
          ++ (dict_flag sample_full ++ timeout_flag t ++ stats_flag sample_full)
          ++ push_dir sample_full :: seed_args sample_full).
Proof.
  split.
  - vm_compute. reflexivity.
  - apply (cmd_four_groups sample_full). vm_compute. reflexivity.
Defined.

(** C10.  The optional flags follow the truth value of the attributes, each
    on its own.  A timeout of 0 milliseconds gives the argument vector of an
    unset timeout, whatever the dictionary: no timeout flag between the
    dictionary flag and the final statistics flag.  An empty dictionary path
    gives the argument vector of an unset dictionary, whatever the timeout:
    no dictionary flag before the timeout flag. *)
Theorem cmd_falsy_options (o : LibFuzzer) :
  cmd (set_exec_timeout (Some 0) o) = cmd (set_exec_timeout None o) /\
  cmd (set_dictionary (Some EmptyString) o) = cmd (set_dictionary None o) /\
  cmd (set_exec_timeout (Some 0) o)
  = Ok (required_flags o ++ passthrough_flags o
        ++ (dict_flag o ++ stats_flag o) ++ positional_args o) /\
  cmd (set_dictionary (Some EmptyString) o)
  = match timeout_value o with
    | Ok t => Ok (required_flags o ++ passthrough_flags o
                  ++ (timeout_flag t ++ stats_flag o) ++ positional_args o)
    | Raise e => Raise e
    end.
Proof.
  rewrite !cmd_groups. split_and!; reflexivity.
Qed.

(** C1 (as the code has it).  A timeout that is set and not zero is divided
    by 1000 with Python's true division, and the float is printed as Python
    prints floats: nothing is truncated.  With 1500 milliseconds the flag is
    [-timeout=1.5]. *)
Theorem cmd_timeout_true_division (o : LibFuzzer) (n : Z) (secs : PyFloat.float) :
  exec_timeout o = Some n ->
  n <> 0 ->
  PyFloat.truediv n 1000 = Ok secs ->
  (exists l, cmd o = Ok l /\ In ("-timeout=" +:+ PyFloat.repr secs) l) /\
  (n = 1500 -> PyFloat.repr secs = "1.5").
Proof.
  intros Ht Hn Hd. split.
  - rewrite cmd_groups. unfold timeout_value. rewrite Ht.
    apply Z.eqb_neq in Hn. rewrite Hn, Hd.
    eexists. split; [reflexivity |].
    unfold optional_flags, timeout_flag.
    rewrite !in_app_iff. right. right. left. right. left. simpl. by left.
  - intros ->. vm_compute in Hd. injection Hd as <-. reflexivity.
Qed.

Lemma cmd_timeout_true_division_witness :
  exec_timeout sample = Some 1500 /\
  1500 <> 0 /\
  PyFloat.truediv 1500 1000 = Ok (PyFloat.FFinite false 6755399441055744 (-52)) /\
  (exists l, cmd sample = Ok l
     /\ In ("-timeout="
            +:+ PyFloat.repr (PyFloat.FFinite false 6755399441055744 (-52))) l) /\
  (1500 = 1500 ->
   PyFloat.repr (PyFloat.FFinite false 6755399441055744 (-52)) = "1.5").
Proof.
  split; [reflexivity |]. split; [lia |]. split; [vm_compute; reflexivity |].
  apply (cmd_timeout_true_division sample 1500); [reflexivity | lia |].
  vm_compute. reflexivity.
Defined.

(** C1, refuted as stated: with a timeout of 1500 milliseconds the command
    carries [-timeout=1.5], and no timeout flag with the truncated value 1. *)
Lemma cmd_timeout_1500_not_truncated :
  exec_timeout sample = Some 1500 /\
  cmd sample =
    Ok [ "-rss_limit_mb=50"; "-max_len=8192";
         "-artifact_prefix=out/the_fuzzer/crashes/"; "-workers=1";
         "-reload=1"; "-runs=-1"; "-timeout=1.5"; "out/sync_dir/queue";
         "seeds" ] /\
  ~ (exists l, cmd sample = Ok l
       /\ In ("-timeout=" +:+ pretty (1500 `div` 1000)) l).
Proof.
  split; [reflexivity |]. split; [vm_compute; reflexivity |].
  intros (l & Hl & Hin). vm_compute in Hl. injection Hl as <-.
  vm_compute in Hin.
  repeat (destruct Hin as [Hin | Hin]; [discriminate Hin |]). exact Hin.
Qed.

(** C4 (as the code has it).  [cmd] does not look at the names of the
    passthrough arguments: for every valid configuration it returns, and a
    passthrough argument named like a required flag is emitted like any
    other, after the required flags. *)
Theorem cmd_emits_colliding_flag (o : LibFuzzer) (key : string) (val : option string) :
  valid_config o ->
  In key required_flag_names ->
  In (key, val) (fuzzer_args o) ->
  exists rest,
    cmd o = Ok (required_flags o ++ rest) /\
    In (passthrough_flag (key, val)) rest.
Proof.
  intros Hv _ Hin. destruct (timeout_value_in_range o Hv) as [t Ht].
  rewrite cmd_groups, Ht. eexists. split; [reflexivity |].
  apply in_app_iff. left. unfold passthrough_flags.
  apply in_map_iff. exists (key, val). split; [reflexivity | exact Hin].
Qed.

Lemma cmd_emits_colliding_flag_witness :
  valid_config sample_collision /\
  In "workers" required_flag_names /\
  In ("workers", Some "4") (fuzzer_args sample_collision) /\
  exists rest,
    cmd sample_collision = Ok (required_flags sample_collision ++ rest) /\
    In (passthrough_flag ("workers", Some "4")) rest.
Proof.
  split; [exact I |]. split; [simpl; tauto |]. split; [simpl; tauto |].
  apply (cmd_emits_colliding_flag sample_collision "workers" (Some "4"));
    [exact I | simpl; tauto | simpl; tauto].
Defined.

(** C4, refuted as stated: a passthrough argument [workers=4] does not make
    [cmd] fail; the command carries both [-workers=1] and [-workers=4]. *)
Lemma cmd_accepts_reserved_key :
  In "workers" required_flag_names /\
  fuzzer_args sample_collision = [("workers", Some "4")] /\
  cmd sample_collision =
    Ok [ "-rss_limit_mb=50"; "-max_len=8192";
         "-artifact_prefix=out/the_fuzzer/crashes/"; "-workers=1";
         "-reload=1"; "-runs=-1"; "-workers=4"; "out/sync_dir/queue" ].
Proof.
  split; [simpl; tauto |]. split; [reflexivity |]. vm_compute. reflexivity.
Qed.

(** * Properties of paths and of the file system *)

Lemma string_app_cons (c : ascii) (a b : string) :
  String c a +:+ b = String c (a +:+ b).
Proof. reflexivity. Qed.

Lemma string_app_nil_l (b : string) : EmptyString +:+ b = b.
Proof. reflexivity. Qed.

Lemma string_app_nil_r (s : string) : s +:+ EmptyString = s.
Proof.
  induction s as [|c s IH]; [done |]. by rewrite string_app_cons, IH.
Qed.

Lemma string_app_assoc (a b c : string) : (a +:+ b) +:+ c = a +:+ (b +:+ c).
Proof.
  induction a as [|x a IH]; [done |]. by rewrite !string_app_cons, IH.
Qed.

Lemma nonempty_app_r (a b : string) :
  Py.nonempty b = true -> Py.nonempty (a +:+ b) = true.
Proof. destruct a; [rewrite string_app_nil_l | rewrite string_app_cons]; auto. Qed.

(** A name is a single component. *)
Lemma split_slash_name (x cur : string) :
  no_slash x = true -> Py.nonempty (cur +:+ x) = true ->
  Os.split_slash cur x = [cur +:+ x].
Proof.
  revert cur. induction x as [|c x IH]; intros cur Hs Hne.
  - rewrite string_app_nil_r in *. simpl. by rewrite Hne.
  - simpl in Hs. apply andb_true_iff in Hs as [Hc Hs].
    apply negb_true_iff in Hc. simpl. rewrite Hc. rewrite IH; [| exact Hs |].
    + by rewrite string_app_assoc, string_app_cons, string_app_nil_l.
    + rewrite string_app_assoc, string_app_cons, string_app_nil_l.
      apply nonempty_app_r. reflexivity.
Qed.

Lemma split_slash_sep_name (a x cur : string) :
  no_slash x = true -> Py.nonempty x = true ->
  Os.split_slash cur (a +:+ "/" +:+ x) = Os.split_slash cur a ++ [x].
Proof.
  intros Hs Hne. revert cur. induction a as [|c a IH]; intros cur.
  - rewrite string_app_nil_l, string_app_cons, string_app_nil_l. simpl.
    rewrite (split_slash_name x EmptyString Hs Hne), string_app_nil_l.
    destruct (Py.nonempty cur); reflexivity.
  - rewrite string_app_cons. simpl.
    destruct (Ascii.eqb c "/"); rewrite IH; [|reflexivity].
    destruct (Py.nonempty cur); reflexivity.
Qed.

Lemma split_slash_dir_name (a x cur : string) :
  no_slash x = true -> Py.nonempty x = true -> Os.endswith_slash a = true ->
  Os.split_slash cur (a +:+ x) = Os.split_slash cur a ++ [x].
Proof.
  intros Hs Hne. revert cur. induction a as [|c a IH]; intros cur He.
  - discriminate He.
  - destruct a as [|c' a'].
    + simpl in He. rewrite string_app_cons, string_app_nil_l. simpl.
      rewrite He.
      rewrite (split_slash_name x EmptyString Hs Hne), string_app_nil_l.
      destruct (Py.nonempty cur); reflexivity.
    + change (Os.endswith_slash (String c' a') = true) in He.
      rewrite string_app_cons. cbn [Os.split_slash].
      destruct (Ascii.eqb c "/"); rewrite (IH _ He); [|reflexivity].
      destruct (Py.nonempty cur); reflexivity.
Qed.

Lemma startswith_slash_app (a b : string) :
  Py.nonempty a = true -> Py.startswith "/" (a +:+ b) = Py.startswith "/" a.
Proof.
  destruct a as [|c a]; [discriminate |]. intros _.
  rewrite string_app_cons. simpl. reflexivity.
Qed.

Lemma no_slash_not_absolute (x : string) :
  no_slash x = true -> Py.startswith "/" x = false.
Proof.
  destruct x as [|c x]; [reflexivity |]. simpl. intros H.
  apply andb_true_iff in H as [Hc _]. apply negb_true_iff in Hc.
  by rewrite Hc.
Qed.

(** Joining a name to a path adds one component. *)
Lemma components_join (a x : string) :
  no_slash x = true -> Py.nonempty x = true ->
  Os.components (Os.path_join a x) = Os.components a ++ [x].
Proof.
  intros Hs Hne. unfold Os.path_join.
  rewrite (no_slash_not_absolute x Hs).
  destruct (Py.nonempty a) eqn:Ha; simpl.
  - destruct (Os.endswith_slash a) eqn:He; unfold Os.components.
    + rewrite (startswith_slash_app a x Ha).
      rewrite (split_slash_dir_name a x EmptyString Hs Hne He).
      by rewrite app_assoc.
    + rewrite (startswith_slash_app a _ Ha).
      rewrite (split_slash_sep_name a x EmptyString Hs Hne).
      by rewrite app_assoc.
  - destruct a; [|discriminate Ha]. rewrite string_app_nil_l.
    unfold Os.components. rewrite (no_slash_not_absolute x Hs).
    rewrite (split_slash_name x EmptyString Hs Hne). reflexivity.
Qed.

Lemma components_push (out : string) :
  Os.components (push_path out) = Os.components out ++ ["sync_dir"; "queue"].
Proof.
  unfold push_path. rewrite !components_join by reflexivity.
  by rewrite <- app_assoc.
Qed.

Lemma components_crash (out : string) :
  Os.components (crash_path out) = Os.components out ++ ["the_fuzzer"; "crashes"].
Proof.
  unfold crash_path. rewrite !components_join by reflexivity.
  by rewrite <- app_assoc.
Qed.

Lemma strip_prefix_app (d r : list string) : Os.strip_prefix d (d ++ r) = Some r.
Proof.
  induction d as [|x d IH]; simpl; [done |].
  by rewrite String.eqb_refl.
Qed.

Lemma child_name_entry (d : list string) (x : string) :
  Os.child_name d (d ++ [x]) = Some x.
Proof. unfold Os.child_name. by rewrite strip_prefix_app. Qed.

(** An empty listing: no entry below the directory. *)
Lemma listdir_nil_absent (d : string) (f : gmap (list string) node) (x : string) :
  Os.listdir d f = Ok [] -> f !! (Os.components d ++ [x]) = None.
Proof.
  unfold Os.listdir. intros H.
  destruct (f !! Os.components d) as [[|]|]; try discriminate H.
  injection H as H.
  destruct (f !! (Os.components d ++ [x])) as [v|] eqn:Hx; [|done].
  exfalso. apply elem_of_map_to_list in Hx.
  assert (Hin : x ∈ omap (fun kv : list string * node =>
                            Os.child_name (Os.components d) (fst kv))
                         (map_to_list f)).
  { apply list_elem_of_omap. eexists. split; [exact Hx |].
    simpl. apply child_name_entry. }
  rewrite H in Hin. by apply not_elem_of_nil in Hin.
Qed.

Lemma parent_snoc (k : list string) (x : string) :
  k <> [] -> parent (k ++ [x]) = Some k.
Proof.
  intros Hk. unfold parent.
  destruct k as [|y k]; [done |]. destruct k as [|z k]; [done |].
  change ((y :: z :: k) ++ [x]) with (y :: z :: (k ++ [x])).
  f_equal. change (y :: z :: (k ++ [x])) with ((y :: z :: k) ++ [x]).
  apply removelast_last.
Qed.

Lemma fs_wfb_sound (f : gmap (list string) node) :
  fs_wfb f = true -> Os.fs_wf f.
Proof.
  unfold fs_wfb, Os.fs_wf. intros H k x Hk [v Hv].
  rewrite forallb_forall in H.
  apply elem_of_map_to_list, list_elem_of_In in Hv.
  specialize (H _ Hv). simpl in H. rewrite (parent_snoc k x Hk) in H.
  destruct (f !! k) as [[|]|]; done.
Qed.

(** [mkdir_if_absent] only adds directories. *)
Lemma mkdir_if_absent_subseteq (f : gmap (list string) node) (k : list string) :
  f ⊆ Os.mkdir_if_absent f k.
Proof.
  unfold Os.mkdir_if_absent. destruct (f !! k) eqn:Hk; [done |].
  by apply insert_subseteq.
Qed.

Lemma mkdir_if_absent_not_file (f : gmap (list string) node) (k k' : list string) :
  f !! k' <> Some File -> Os.mkdir_if_absent f k !! k' <> Some File.
Proof.
  unfold Os.mkdir_if_absent. intros H. destruct (f !! k) eqn:Hk; [done |].
  destruct (decide (k = k')) as [->|Hne].
  - by rewrite lookup_insert_eq.
  - by rewrite lookup_insert_ne.
Qed.

Lemma mkdir_if_absent_dir (f : gmap (list string) node) (k : list string) :
  f !! k <> Some File -> Os.mkdir_if_absent f k !! k = Some Dir.
Proof.
  unfold Os.mkdir_if_absent. intros H. destruct (f !! k) as [[|]|] eqn:Hk.
  - done.
  - done.
  - by rewrite lookup_insert_eq.
Qed.

Lemma foldl_mkdir_subseteq (ks : list (list string)) (f : gmap (list string) node) :
  f ⊆ foldl Os.mkdir_if_absent f ks.
Proof.
  revert f. induction ks as [|k ks IH]; intros f; simpl; [done |].
  etrans; [apply (mkdir_if_absent_subseteq f k) | apply IH].
Qed.

Lemma foldl_mkdir_not_file (ks : list (list string)) (f : gmap (list string) node)
    (k' : list string) :
  f !! k' <> Some File -> foldl Os.mkdir_if_absent f ks !! k' <> Some File.
Proof.
  revert f. induction ks as [|k ks IH]; intros f H; simpl; [done |].
  apply IH. by apply mkdir_if_absent_not_file.
Qed.

Lemma prefixes_snoc (pre k : list string) (x : string) :
  Os.prefixes pre (k ++ [x]) = Os.prefixes pre k ++ [pre ++ k ++ [x]].
Proof.
  revert pre. induction k as [|y k IH]; intros pre; simpl.
  - reflexivity.
  - rewrite IH. by rewrite <- !app_assoc.
Qed.

Lemma makedirs_subseteq (p : string) (f : gmap (list string) node) :
  f ⊆ Os.makedirs p f.
Proof. apply foldl_mkdir_subseteq. Qed.

Lemma makedirs_not_file (p : string) (f : gmap (list string) node) (k : list string) :
  f !! k <> Some File -> Os.makedirs p f !! k <> Some File.
Proof. apply foldl_mkdir_not_file. Qed.

(** After [makedirs] the path names a directory, unless it named a file. *)
Lemma makedirs_isdir (p : string) (f : gmap (list string) node) :
  Os.components p <> [] -> f !! Os.components p <> Some File ->
  Os.isdir p (Os.makedirs p f) = true.
Proof.
  intros Hne Hf. unfold Os.isdir, Os.makedirs.
  destruct (Os.components p) as [|y k] using rev_ind; [done |]. clear IHk.
  rewrite prefixes_snoc, foldl_app. simpl.
  rewrite mkdir_if_absent_dir; [done |].
  by apply foldl_mkdir_not_file.
Qed.

Lemma isdir_subseteq (p : string) (f g : gmap (list string) node) :
  f ⊆ g -> Os.isdir p f = true -> Os.isdir p g = true.
Proof.
  unfold Os.isdir. intros Hsub H.
  destruct (f !! Os.components p) as [[|]|] eqn:Hp; try discriminate H.
  by rewrite (lookup_weaken _ _ _ _ Hp Hsub).
Qed.

(** * Properties of [pre_exec] *)

Lemma check_required_directories_ok (dirs : list string) (w : World) :
  forallb (fun d => Os.isdir d (fs w)) dirs = true ->
  check_required_directories dirs w = (Ok tt, w).
Proof.
  induction dirs as [|d dirs IH]; simpl; intros H; [done |].
  apply andb_true_iff in H as [Hd H].
  unfold bind, get_fs. rewrite Hd. by apply IH.
Qed.

Lemma check_required_directories_missing (dirs : list string) (w : World) :
  forallb (fun d => Os.isdir d (fs w)) dirs = false ->
  exists msg, check_required_directories dirs w = (Raise (FuzzFrontendError msg), w).
Proof.
  induction dirs as [|d dirs IH]; simpl; intros H; [done |].
  unfold bind, get_fs. destruct (Os.isdir d (fs w)); simpl in H.
  - by apply IH.
  - unfold raise. eauto.
Qed.

Lemma pre_exec_layout_unfold (w : World) :
  pre_exec_layout w =
  let o := with_paths (self w) in
  let w' := MkWorld o (fs w) (log w) in
  match Os.listdir (output_test_dir (self w)) (fs w) with
  | Raise e => (Raise e, w')
  | Ok entries =>
      if 0 <? Z.of_nat (length entries) then
        match check_required_directories
                [push_dir o; pull_dir o; crash_dir o] w' with
        | (Ok _, w'') =>
            (Ok tt, MkWorld (set_input_seeds None (self w'')) (fs w'')
                      (log w'' ++ [resume_message (push_dir (self w''))]))
        | (Raise e, w'') => (Raise e, w'')
        end
      else
        (Ok tt, MkWorld o (Os.makedirs (crash_dir o)
                             (Os.makedirs (pull_dir o) (fs w))) (log w))
  end.
Proof.
  unfold pre_exec_layout, bind, get_self, upd_self, get_fs, lift, log_info.
  cbn -[check_required_directories Os.listdir Os.makedirs Os.path_join
       Z.of_nat Z.ltb].
  destruct (Os.listdir _ _) as [entries|e]; [|reflexivity].
  destruct (0 <? _); [|reflexivity].
  destruct (check_required_directories _ _) as [[[]|e] w'']; reflexivity.
Qed.

Lemma components_push_nonempty (out : string) : Os.components (push_path out) <> [].
Proof. rewrite components_push. by destruct (Os.components out). Qed.

Lemma components_crash_nonempty (out : string) : Os.components (crash_path out) <> [].
Proof. rewrite components_crash. by destruct (Os.components out). Qed.

(** In an empty directory of a well-formed file system there is nothing two
    levels down either. *)
Lemma listdir_nil_absent2 (d : string) (f : gmap (list string) node) (x y : string) :
  Os.fs_wf f -> Os.listdir d f = Ok [] ->
  f !! (Os.components d ++ [x; y]) = None.
Proof.
  intros Hwf Hl.
  destruct (f !! (Os.components d ++ [x; y])) as [v|] eqn:Hxy; [|done].
  exfalso.
  assert (Hk : Os.components d ++ [x] <> []) by (by destruct (Os.components d)).
  specialize (Hwf (Os.components d ++ [x]) y Hk).
  rewrite <- app_assoc in Hwf. simpl in Hwf.
  rewrite (listdir_nil_absent d f x Hl) in Hwf.
  by specialize (Hwf (mk_is_Some _ _ Hxy)).
Qed.

(** C3.  Once the sanity checks have passed, [pre_exec] splits three ways on
    the listing of the output directory.  Empty: the push directory and the
    crash directory did not exist and are created, nothing else is lost,
    the seeds are kept and nothing is logged (a fresh session).  Not empty,
    both directories there: the file system is left as it was, the seeds are
    dropped and the resuming message is logged.  Not empty, a directory
    missing: [FuzzFrontendError], the file system left as it was. *)
Theorem pre_exec_three_way (abspath : string -> string) (super_pre_exec : M unit)
    (w w1 : World) :
  pre_exec_checks abspath super_pre_exec w = (Ok tt, w1) ->
  fs_wfb (fs w1) = true ->
  let out := output_test_dir (self w1) in
  match Os.listdir out (fs w1) with
  | Ok [] =>
      exists w2,
        pre_exec abspath super_pre_exec w = (Ok tt, w2) /\
        Os.isdir (push_path out) (fs w1) = false /\
        Os.isdir (crash_path out) (fs w1) = false /\
        Os.isdir (push_path out) (fs w2) = true /\
        Os.isdir (crash_path out) (fs w2) = true /\
        fs w1 ⊆ fs w2 /\
        input_seeds (self w2) = input_seeds (self w1) /\
        log w2 = log w1 /\
        push_dir (self w2) = push_path out /\
        crash_dir (self w2) = crash_path out
  | Ok (_ :: _) =>
      if Os.isdir (push_path out) (fs w1) && Os.isdir (crash_path out) (fs w1)
      then
        exists w2,
          pre_exec abspath super_pre_exec w = (Ok tt, w2) /\
          fs w2 = fs w1 /\
          input_seeds (self w2) = None /\
          log w2 = log w1 ++ [resume_message (push_path out)] /\
          push_dir (self w2) = push_path out /\
          crash_dir (self w2) = crash_path out
      else
        exists msg w2,
          pre_exec abspath super_pre_exec w = (Raise (FuzzFrontendError msg), w2) /\
          fs w2 = fs w1 /\
          log w2 = log w1
  | Raise e =>
      exists w2, pre_exec abspath super_pre_exec w = (Raise e, w2) /\ fs w2 = fs w1
  end.
Proof.
  intros Hc Hwf out. apply fs_wfb_sound in Hwf.
  unfold pre_exec, bind. rewrite Hc, pre_exec_layout_unfold. cbn zeta.
  fold out. destruct (Os.listdir out (fs w1)) as [[|e es]|err] eqn:Hl.
  - (* fresh session *)
    change (0 <? Z.of_nat (length (@nil string))) with false. cbn iota.
    change (pull_dir (with_paths (self w1))) with (push_path out).
    change (crash_dir (with_paths (self w1))) with (crash_path out).
    assert (Hp : fs w1 !! Os.components (push_path out) = None)
      by (rewrite components_push; by apply listdir_nil_absent2).
    assert (Hcr : fs w1 !! Os.components (crash_path out) = None)
      by (rewrite components_crash; by apply listdir_nil_absent2).
    eexists. split; [reflexivity |]. cbn [self fs log].
    repeat split.
    + unfold Os.isdir. by rewrite Hp.
    + unfold Os.isdir. by rewrite Hcr.
    + apply (isdir_subseteq _ _ _ (makedirs_subseteq _ _)).
      apply makedirs_isdir; [apply components_push_nonempty |].
      by rewrite Hp.
    + apply makedirs_isdir; [apply components_crash_nonempty |].
      apply makedirs_not_file. by rewrite Hcr.
    + etrans; apply makedirs_subseteq.
  - (* something is there already *)
    replace (0 <? Z.of_nat (length (e :: es))) with true
      by (symmetry; apply Z.ltb_lt; simpl; lia).
    change (push_dir (with_paths (self w1))) with (push_path out).
    change (pull_dir (with_paths (self w1))) with (push_path out).
    change (crash_dir (with_paths (self w1))) with (crash_path out).
    set (w' := MkWorld (with_paths (self w1)) (fs w1) (log w1)).
    destruct (Os.isdir (push_path out) (fs w1)
              && Os.isdir (crash_path out) (fs w1)) eqn:Hd.
    + apply andb_true_iff in Hd as [Hd1 Hd2].
      rewrite check_required_directories_ok
        by (simpl; by rewrite Hd1, Hd2).
      eexists. split; [reflexivity |]. by repeat split.
    + destruct (check_required_directories_missing
                  [push_path out; push_path out; crash_path out] w')
        as [msg Hmsg].
      { simpl. apply andb_false_iff in Hd as [-> | ->]; [done |].
        by rewrite !andb_false_r. }
      rewrite Hmsg. exists msg, w'. by repeat split.
  - eexists. split; reflexivity.
Qed.

Lemma pre_exec_three_way_witness :
  pre_exec_checks sample_abspath (ret tt) world_fresh
    = (Ok tt, MkWorld checked (fs world_fresh) []) /\
  fs_wfb (fs world_fresh) = true /\
  exists w2,
    pre_exec sample_abspath (ret tt) world_fresh = (Ok tt, w2) /\
    Os.isdir "out/sync_dir/queue" (fs world_fresh) = false /\
    Os.isdir "out/the_fuzzer/crashes" (fs world_fresh) = false /\
    Os.isdir "out/sync_dir/queue" (fs w2) = true /\
    Os.isdir "out/the_fuzzer/crashes" (fs w2) = true /\
    fs world_fresh ⊆ fs w2 /\
    input_seeds (self w2) = Some "seeds" /\
    log w2 = [] /\
    push_dir (self w2) = "out/sync_dir/queue" /\
    crash_dir (self w2) = "out/the_fuzzer/crashes".
Proof.
  split; [vm_compute; reflexivity |]. split; [vm_compute; reflexivity |].
  exact (pre_exec_three_way sample_abspath (ret tt) world_fresh
           (MkWorld checked (fs world_fresh) [])
           ltac:(vm_compute; reflexivity) ltac:(vm_compute; reflexivity)).
Defined.

Lemma check_required_directories_world (dirs : list string) (w : World) :
  snd (check_required_directories dirs w) = w.
Proof.
  induction dirs as [|d dirs IH]; simpl; [done |].
  unfold bind, get_fs. by destruct (Os.isdir d (fs w)).
Qed.

Lemma seed_args_singleton (o : LibFuzzer) (s : string) :
  seed_args o = [s] <-> input_seeds o = Some s /\ s <> EmptyString.
Proof.
  unfold seed_args. destruct (input_seeds o) as [s'|].
  - destruct s' as [|c s']; simpl.
    + split; [done | intros [[= <-] H]; done].
    + split; [intros [= <-]; done | intros [[= <-] _]; done].
  - split; [done | intros [H _]; done].
Qed.

(** C8.  After [pre_exec], the argument vector ends with the push
    directory, followed by at most one more argument; that argument is the
    seed directory [s] if and only if the output directory was empty (a
    fresh session) and [input_seeds] was set to the non-empty path [s].  On
    resume the seeds given never reach the command. *)
Theorem cmd_seeds_iff_fresh (abspath : string -> string) (super_pre_exec : M unit)
    (w w1 w2 : World) :
  pre_exec_checks abspath super_pre_exec w = (Ok tt, w1) ->
  pre_exec abspath super_pre_exec w = (Ok tt, w2) ->
  valid_config (self w1) ->
  exists (t : option string) (seeds : list string),
    cmd (self w2) =
      Ok ((required_flags (self w2) ++ passthrough_flags (self w2)
           ++ optional_flags (self w2) t) ++ push_dir (self w2) :: seeds) /\
    (length seeds <= 1)%nat /\
    forall s : string,
      seeds = [s] <->
      (Os.listdir (output_test_dir (self w1)) (fs w1) = Ok [] /\
       input_seeds (self w1) = Some s /\ s <> EmptyString).
Proof.
  intros Hc Hp Hv.
  destruct (timeout_value_in_range _ Hv) as [t Ht]. exists t.
  unfold pre_exec, bind in Hp. rewrite Hc, pre_exec_layout_unfold in Hp.
  cbn zeta in Hp.
  destruct (Os.listdir _ (fs w1)) as [[|e es]|err] eqn:Hl.
  - (* fresh session: the seeds are those given *)
    change (0 <? Z.of_nat (length (@nil string))) with false in Hp.
    injection Hp as <-. exists (seed_args (self w1)).
    rewrite cmd_groups. cbn [self].
    change (timeout_value (with_paths (self w1))) with (timeout_value (self w1)).
    rewrite Ht. split; [| split].
    + unfold positional_args.
      change (seed_args (with_paths (self w1))) with (seed_args (self w1)).
      by rewrite <- !app_assoc.
    + unfold seed_args. destruct (input_seeds (self w1)) as [s|]; simpl; [|lia].
      destruct (Py.nonempty s); simpl; lia.
    + intros s. rewrite seed_args_singleton. tauto.
  - (* resumed session: the seeds are dropped *)
    replace (0 <? Z.of_nat (length (e :: es))) with true in Hp
      by (symmetry; apply Z.ltb_lt; simpl; lia).
    match type of Hp with
    | context [check_required_directories ?ds ?w'] =>
        pose proof (check_required_directories_world ds w') as Hw;
        destruct (check_required_directories ds w') as [[[]|err] w'']
    end; [|discriminate Hp].
    simpl in Hw. subst w''. injection Hp as <-. exists [].
    rewrite cmd_groups. cbn [self].
    change (timeout_value (set_input_seeds None (with_paths (self w1))))
      with (timeout_value (self w1)).
    rewrite Ht. split; [| split].
    + unfold positional_args.
      change (seed_args (set_input_seeds None (with_paths (self w1)))) with (@nil string).
      by rewrite <- !app_assoc.
    + simpl. lia.
    + intros s. split; [discriminate | intros [H _]; discriminate H].
  - discriminate Hp.
Qed.

Lemma cmd_seeds_iff_fresh_witness :
  let w1 := MkWorld checked (fs world_fresh) [] in
  let w2 := snd (pre_exec sample_abspath (ret tt) world_fresh) in
  pre_exec_checks sample_abspath (ret tt) world_fresh = (Ok tt, w1) /\
  pre_exec sample_abspath (ret tt) world_fresh = (Ok tt, w2) /\
  valid_config (self w1) /\
  exists (t : option string) (seeds : list string),
    cmd (self w2) =
      Ok ((required_flags (self w2) ++ passthrough_flags (self w2)
           ++ optional_flags (self w2) t) ++ push_dir (self w2) :: seeds) /\
    (length seeds <= 1)%nat /\
    forall s : string,
      seeds = [s] <->
      (Os.listdir (output_test_dir (self w1)) (fs w1) = Ok [] /\
       input_seeds (self w1) = Some s /\ s <> EmptyString).
Proof.
  intros w1 w2.
  split; [vm_compute; reflexivity |]. split; [vm_compute; reflexivity |].
  split; [vm_compute; reflexivity |].
  apply (cmd_seeds_iff_fresh sample_abspath (ret tt) world_fresh w1 w2);
    vm_compute; reflexivity.
Defined.

(** The three branches of [pre_exec] and the commands that follow, on the
    sample worlds. *)
Example pre_exec_fresh_example :
  let w2 := snd (pre_exec sample_abspath (ret tt) world_fresh) in
  fst (pre_exec sample_abspath (ret tt) world_fresh) = Ok tt /\
  log w2 = [] /\
  cmd (self w2) =
    Ok [ "-rss_limit_mb=50"; "-max_len=8192";
         "-artifact_prefix=out/the_fuzzer/crashes/"; "-workers=1";
         "-reload=1"; "-runs=-1"; "-timeout=1.5"; "out/sync_dir/queue";
         "seeds" ].
Proof.
  cbv zeta. split; [reflexivity |]. split; [reflexivity |].
  vm_compute. reflexivity.
Qed.

Example pre_exec_resume_example :
  let w2 := snd (pre_exec sample_abspath (ret tt) world_resume) in
  fst (pre_exec sample_abspath (ret tt) world_resume) = Ok tt /\
  fs w2 = fs world_resume /\
  log w2 = ["Resuming fuzzing using seeds from out/sync_dir/queue (skipping --input_seeds option)."] /\
  cmd (self w2) =
    Ok [ "-rss_limit_mb=50"; "-max_len=8192";
         "-artifact_prefix=out/the_fuzzer/crashes/"; "-workers=1";
         "-reload=1"; "-runs=-1"; "-timeout=1.5"; "out/sync_dir/queue" ].
Proof.
  cbv zeta. split; [reflexivity |]. split; [reflexivity |].
  split; [reflexivity |]. vm_compute. reflexivity.
Qed.

Example pre_exec_broken_example :
  pre_exec sample_abspath (ret tt) world_broken
  = (Raise (FuzzFrontendError "missing required directory"),
     MkWorld (with_paths checked) (fs world_broken) []).
Proof. reflexivity. Qed.

(** * Properties of [populate_stats] *)

(** One turn of the outer loop, by the kind of the line. *)
Lemma scan_lines_cons_start (line : string) (rest : list string) (v : string)
    (w : World) :
  counter_of line = Ok (Some v) ->
  scan_lines false (line :: rest) w =
  (set_stat "execs_done" v ;;
   block <- stderr_readlines 100 ;;
   done_reading <- read_block false block ;;
   scan_lines done_reading rest) w.
Proof.
  unfold counter_of. cbn [scan_lines]. intros H.
  destruct (Py.startswith "EXTERNAL: " line); [|discriminate H].
  unfold bind at 1. unfold lift at 1.
  destruct (Py.getitem (Py.split1 ":" line) 1) as [part|e]; [|discriminate H].
  destruct (Py.startswith "#" (Py.strip part)); [|discriminate H].
  unfold bind at 1. unfold lift at 1.
  destruct (Py.getitem (Py.split_ws (Py.strip part)) 0) as [tok|e];
    [|discriminate H].
  unfold bind at 1. unfold lift at 1.
  destruct (Py.decode (Py.strip_chars "#" tok)) as [v'|e]; [|discriminate H].
  by injection H as ->.
Qed.

Lemma scan_lines_cons_skip (line : string) (rest : list string) (w : World) :
  counter_of line = Ok None ->
  scan_lines false (line :: rest) w = scan_lines false rest w.
Proof.
  unfold counter_of. cbn [scan_lines]. intros H.
  destruct (Py.startswith "EXTERNAL: " line); [|reflexivity].
  unfold bind at 1. unfold lift at 1.
  destruct (Py.getitem (Py.split1 ":" line) 1) as [part|e]; [|discriminate H].
  destruct (Py.startswith "#" (Py.strip part)); [|reflexivity].
  destruct (Py.getitem (Py.split_ws (Py.strip part)) 0) as [tok|e];
    [|discriminate H].
  destruct (Py.decode (Py.strip_chars "#" tok)) as [v'|e]; discriminate H.
Qed.

Lemma scan_lines_cons_raise (line : string) (rest : list string) (e : exn)
    (w : World) :
  counter_of line = Raise e ->
  scan_lines false (line :: rest) w = (Raise e, w).
Proof.
  unfold counter_of. cbn [scan_lines]. intros H.
  destruct (Py.startswith "EXTERNAL: " line); [|discriminate H].
  unfold bind at 1. unfold lift at 1.
  destruct (Py.getitem (Py.split1 ":" line) 1) as [part|e'];
    [|by injection H as ->].
  destruct (Py.startswith "#" (Py.strip part)); [|discriminate H].
  unfold bind at 1. unfold lift at 1.
  destruct (Py.getitem (Py.split_ws (Py.strip part)) 0) as [tok|e'];
    [|by injection H as ->].
  unfold bind at 1. unfold lift at 1.
  destruct (Py.decode (Py.strip_chars "#" tok)) as [v'|e'];
    [discriminate H | by injection H as ->].
Qed.

(** Once [done_reading] is set the outer loop is left at once. *)
Lemma scan_lines_done (lines : list string) (w : World) :
  scan_lines true lines w = (Ok tt, w).
Proof. by destruct lines. Qed.

Lemma same_but_metrics_refl (w : World) : same_but_metrics w w.
Proof. by split. Qed.

Lemma same_but_metrics_trans (w1 w2 w3 : World) :
  same_but_metrics w1 w2 -> same_but_metrics w2 w3 -> same_but_metrics w1 w3.
Proof. intros [H1 H2] [H3 H4]. split; congruence. Qed.

Lemma set_stat_metric (key v : string) (w : World) :
  key <> "execs_done" ->
  exists w', set_stat key v w = (Ok tt, w') /\ same_but_metrics w w'.
Proof.
  intros Hk. eexists. split; [reflexivity |]. split; [reflexivity |].
  unfold execs_done. simpl. by rewrite lookup_insert_ne.
Qed.

Lemma store_metric_frame (line : string) (w : World) :
  same_but_metrics w (snd (store_metric line w)).
Proof.
  unfold store_metric.
  destruct (Py.contains ": " line); [|apply same_but_metrics_refl].
  unfold bind at 1. unfold lift at 1.
  destruct (Py.getitem _ 0) as [key|e]; [|apply same_but_metrics_refl].
  unfold bind at 1. unfold lift at 1.
  destruct (Py.getitem _ 1) as [value|e]; [|apply same_but_metrics_refl].
  repeat (match goal with
          | |- context [if String.eqb key ?k then _ else _] =>
              destruct (String.eqb key k)
          end;
          [ unfold bind at 1; unfold lift at 1;
            destruct (Py.decode value) as [v|e]; [|apply same_but_metrics_refl];
            match goal with
            | |- context [set_stat ?k v w] =>
                destruct (set_stat_metric k v w) as (w' & -> & Hw');
                [discriminate | exact Hw']
            end
          | ]).
  apply same_but_metrics_refl.
Qed.

Lemma read_block_frame (done_reading : bool) (lines : list string) (w : World) :
  same_but_metrics w (snd (read_block done_reading lines w)).
Proof.
  revert w. induction lines as [|line lines IH]; intros w.
  - apply same_but_metrics_refl.
  - cbn [read_block]. unfold bind at 1. unfold lift at 1.
    destruct (Py.getitem _ 1) as [part|e]; [|apply same_but_metrics_refl].
    destruct (_ || _); [apply same_but_metrics_refl |].
    unfold bind. pose proof (store_metric_frame (Py.strip part) w) as Hs.
    destruct (store_metric (Py.strip part) w) as [[[]|e] w1]; simpl in Hs.
    + eapply same_but_metrics_trans; [exact Hs | apply IH].
    + exact Hs.
Qed.

(** The lines after the end of the block are not looked at. *)
Lemma read_block_after_end (done_reading : bool) (pre post : list string)
    (l : string) (w : World) :
  block_end l = true ->
  read_block done_reading (pre ++ l :: post) w
  = read_block done_reading (pre ++ [l]) w.
Proof.
  intros Hl. revert w. induction pre as [|x pre IH]; intros w.
  - unfold block_end in Hl. cbn [app read_block]. unfold bind, lift.
    destruct (Py.getitem _ 1) as [part|e]; [|discriminate Hl].
    by rewrite Hl.
  - cbn [app read_block]. unfold bind at 1 3. unfold lift at 1 2.
    destruct (Py.getitem _ 1) as [part|e]; [|reflexivity].
    destruct (_ || _); [reflexivity |].
    unfold bind.
    destruct (store_metric (Py.strip part) w) as [[[]|e] w1];
      [apply IH | reflexivity].
Qed.

(** A read that holds the end of a block leaves the inner loop with
    [done_reading] set, unless it raises before. *)
Lemma read_block_reaches_end (done_reading : bool) (pre : list string)
    (l : string) (w : World) (b : bool) (w' : World) :
  block_end l = true ->
  read_block done_reading (pre ++ [l]) w = (Ok b, w') -> b = true.
Proof.
  intros Hl. revert w. induction pre as [|x pre IH]; intros w.
  - unfold block_end in Hl. cbn [app read_block]. unfold bind, lift.
    destruct (Py.getitem _ 1) as [part|e]; [|discriminate Hl].
    rewrite Hl. unfold ret. by intros [= <- _].
  - cbn [app read_block]. unfold bind at 1. unfold lift at 1.
    destruct (Py.getitem _ 1) as [part|e]; [|discriminate].
    destruct (_ || _); [unfold ret; by intros [= <- _] |].
    unfold bind.
    destruct (store_metric (Py.strip part) w) as [[[]|e] w1];
      [apply IH | discriminate].
Qed.

Lemma stderr_readlines_open (w : World) (p : Proc) :
  proc (self w) = Some p -> stderr_closed p = false ->
  stderr_readlines 100 w =
  (Ok (fst (readlines 100 (stderr_lines p))),
   MkWorld (set_proc (Some (MkProc false (snd (readlines 100 (stderr_lines p)))))
              (self w)) (fs w) (log w)).
Proof.
  intros Hp Hc. unfold stderr_readlines, bind, get_self. rewrite Hp, Hc.
  by destruct (readlines 100 (stderr_lines p)).
Qed.

Lemma stderr_readlines_stats (w : World) :
  stats (self (snd (stderr_readlines 100 w))) = stats (self w).
Proof.
  unfold stderr_readlines, bind, get_self.
  destruct (proc (self w)) as [p|]; [|reflexivity].
  destruct (stderr_closed p); [reflexivity |].
  by destruct (readlines 100 (stderr_lines p)).
Qed.

(** C6 (as the code has it).  When a line starts a block and the second
    read holds the end of that block, the call is over at that end: the
    lines after it in the second read ([post]) and the lines after the
    block start in the first read ([rest]) are not looked at.  They have
    been taken from the pipe all the same: what the next call will find is
    [remaining], the lines after the second read. *)
Theorem scan_lines_stops_at_block_end (w : World) (p : Proc) (line l v : string)
    (rest pre post remaining : list string) :
  proc (self w) = Some p ->
  stderr_closed p = false ->
  counter_of line = Ok (Some v) ->
  readlines 100 (stderr_lines p) = (pre ++ l :: post, remaining) ->
  block_end l = true ->
  scan_lines false (line :: rest) w =
    (let '(r, w2) := read_block false (pre ++ [l]) (block_opened v remaining w) in
     (match r with Ok _ => Ok tt | Raise e => Raise e end, w2)) /\
  pipe_of (snd (scan_lines false (line :: rest) w)) = remaining.
Proof.
  intros Hp Hc Hv Hr Hl.
  assert (Heq : scan_lines false (line :: rest) w =
    (let '(r, w2) := read_block false (pre ++ [l]) (block_opened v remaining w) in
     (match r with Ok _ => Ok tt | Raise e => Raise e end, w2))).
  { rewrite (scan_lines_cons_start line rest v w Hv).
    unfold bind at 1. unfold set_stat at 1, upd_self at 1.
    unfold bind at 1.
    rewrite (stderr_readlines_open _ p) by (simpl; assumption).
    rewrite Hr. cbn [fst snd self fs log].
    fold (block_opened v remaining w).
    unfold bind. rewrite read_block_after_end by exact Hl.
    destruct (read_block false (pre ++ [l]) (block_opened v remaining w))
      as [[b|e] w2] eqn:Hb; [|reflexivity].
    rewrite (read_block_reaches_end _ _ _ _ _ _ Hl Hb).
    apply scan_lines_done. }
  split; [exact Heq |]. rewrite Heq.
  pose proof (read_block_frame false (pre ++ [l]) (block_opened v remaining w))
    as [Hproc _].
  destruct (read_block false (pre ++ [l]) (block_opened v remaining w))
    as [r w2]. simpl in *. unfold pipe_of. by rewrite Hproc.
Qed.

Lemma scan_lines_stops_at_block_end_witness :
  let w := running [l_rate; l_end; l_pulse; l_rate; l_end] in
  let p := MkProc false [l_rate; l_end; l_pulse; l_rate; l_end] in
  proc (self w) = Some p /\
  stderr_closed p = false /\
  counter_of l_init = Ok (Some "2") /\
  readlines 100 (stderr_lines p) = ([l_rate] ++ l_end :: [l_pulse], [l_rate; l_end]) /\
  block_end l_end = true /\
  scan_lines false [l_init] w =
    (let '(r, w2) :=
       read_block false ([l_rate] ++ [l_end]) (block_opened "2" [l_rate; l_end] w) in
     (match r with Ok _ => Ok tt | Raise e => Raise e end, w2)) /\
  pipe_of (snd (scan_lines false [l_init] w)) = [l_rate; l_end].
Proof.
  intros w p.
  split; [reflexivity |]. split; [reflexivity |].
  split; [vm_compute; reflexivity |]. split; [vm_compute; reflexivity |].
  split; [vm_compute; reflexivity |].
  apply (scan_lines_stops_at_block_end w p l_init l_end "2" [] [l_rate]
           [l_pulse] [l_rate; l_end]);
    solve [reflexivity | vm_compute; reflexivity].
Defined.

(** C6, refuted as stated: the block that starts with [#4096] follows the end
    of the first block in the lines of the second read.  It is not harvested
    by the first call, it is not in the pipe after that call, and the next
    call does not see it. *)
Lemma block_after_end_is_lost :
  let w0 := running stream_two_blocks in
  let w1 := snd (populate_stats (ret tt) w0) in
  let w2 := snd (populate_stats (ret tt) w1) in
  fst (populate_stats (ret tt) w0) = Ok tt /\
  stats_of w1 = [("execs_done", "2"); ("execs_per_sec", "512")] /\
  pipe_of w1 = [l_rate; l_end] /\
  ~ In l_pulse (pipe_of w1) /\
  fst (populate_stats (ret tt) w1) = Ok tt /\
  stats_of w2 = [("execs_done", "2"); ("execs_per_sec", "512")] /\
  pipe_of w2 = [].
Proof.
  cbv zeta. split; [vm_compute; reflexivity |].
  split; [vm_compute; reflexivity |]. split; [vm_compute; reflexivity |].
  split.
  - vm_compute. intros [H | [H | []]]; discriminate H.
  - split; [vm_compute; reflexivity |]. split; vm_compute; reflexivity.
Qed.

Lemma last_cons_or {A} (x : A) (l : list A) (o : option A) :
  match last (x :: l) with Some y => Some y | None => o end
  = match last l with Some y => Some y | None => Some x end.
Proof. rewrite last_cons. by destruct (last l). Qed.

(** The outer loop after a line that starts a block, with the first three
    statements taken together. *)
Lemma scan_lines_cons_start_block (line : string) (rest : list string)
    (v : string) (w : World) :
  counter_of line = Ok (Some v) ->
  scan_lines false (line :: rest) w =
  match (set_stat "execs_done" v ;;
         block <- stderr_readlines 100 ;;
         read_block false block) w with
  | (Ok done_reading, w1) => scan_lines done_reading rest w1
  | (Raise e, w1) => (Raise e, w1)
  end.
Proof.
  intros Hc. rewrite (scan_lines_cons_start line rest v w Hc).
  unfold bind at 1 4. destruct (set_stat "execs_done" v w) as [[[]|e] wa];
    [|reflexivity].
  unfold bind at 1 3. destruct (stderr_readlines 100 wa) as [[block|e] wb];
    [|reflexivity].
  unfold bind. by destruct (read_block false block wb) as [[d|e] wc].
Qed.

(** Opening a block leaves its counter in [execs_done]. *)
Lemma open_block_execs_done (v : string) (w w1 : World) (r : result bool) :
  (set_stat "execs_done" v ;;
   block <- stderr_readlines 100 ;;
   read_block false block) w = (r, w1) ->
  execs_done w1 = Some v.
Proof.
  unfold bind at 1. unfold set_stat at 1, upd_self at 1.
  set (wa := MkWorld _ (fs w) (log w)).
  assert (Ha : execs_done wa = Some v)
    by (unfold execs_done, wa; simpl; by rewrite lookup_insert_eq).
  unfold bind at 1. pose proof (stderr_readlines_stats wa) as Hs.
  destruct (stderr_readlines 100 wa) as [[block|e] wb]; simpl in Hs.
  - pose proof (read_block_frame false block wb) as [_ Hf].
    destruct (read_block false block wb) as [r' wc]. simpl in Hf.
    intros [= _ <-]. unfold execs_done in *. by rewrite Hf, Hs.
  - intros [= _ <-]. unfold execs_done in *. by rewrite Hs.
Qed.

(** After the outer loop [execs_done] is the last value assigned to it. *)
Lemma scan_lines_last_counter (lines : list string) (d : bool) (w w' : World)
    (r : result unit) :
  scan_lines d lines w = (r, w') ->
  execs_done w' = match last (counters_stored d lines w) with
                  | Some v => Some v
                  | None => execs_done w
                  end.
Proof.
  revert d w. induction lines as [|line rest IH]; intros d w H.
  - by injection H as _ <-.
  - destruct d; [rewrite scan_lines_done in H; by injection H as _ <- |].
    cbn [counters_stored]. destruct (counter_of line) as [[v|]|e] eqn:Hc.
    + rewrite (scan_lines_cons_start_block line rest v w Hc) in H.
      rewrite last_cons_or.
      destruct ((set_stat "execs_done" v ;;
                 block <- stderr_readlines 100 ;;
                 read_block false block) w) as [[d'|e] w1] eqn:Hb.
      * rewrite (IH _ _ H), (open_block_execs_done _ _ _ _ Hb).
        by destruct (last (counters_stored d' rest w1)).
      * injection H as _ <-. by rewrite (open_block_execs_done _ _ _ _ Hb).
    + rewrite (scan_lines_cons_skip line rest w Hc) in H. by apply IH.
    + rewrite (scan_lines_cons_raise line rest e w Hc) in H.
      by injection H as _ <-.
Qed.

(** Every value assigned is the counter of a line of the read. *)
Lemma counters_stored_source (lines : list string) (d : bool) (w : World)
    (v : string) :
  In v (counters_stored d lines w) ->
  exists line, In line lines /\ counter_of line = Ok (Some v).
Proof.
  revert d w. induction lines as [|line rest IH]; intros d w; [done |].
  cbn [counters_stored]. destruct d; [done |].
  destruct (counter_of line) as [[v0|]|e] eqn:Hc; [| |done].
  - intros [<- | Hin]; [exists line; split; [by left | done] |].
    destruct ((set_stat "execs_done" v0 ;;
               block <- stderr_readlines 100 ;;
               read_block false block) w) as [[d'|e] w1]; [|done].
    destruct (IH _ _ Hin) as (l & Hl & Hv).
    exists l. split; [by right | done].
  - intros Hin. destruct (IH _ _ Hin) as (l & Hl & Hv).
    exists l. split; [by right | done].
Qed.

(** The first line that starts a block is reached, unless a counter before
    it cannot be read. *)
Lemma counters_stored_first (pre post : list string) (line v : string)
    (w : World) :
  Forall (fun l => counter_of l = Ok None) pre ->
  counter_of line = Ok (Some v) ->
  exists more, counters_stored false (pre ++ line :: post) w = v :: more.
Proof.
  intros Hpre Hc. induction Hpre as [|l pre Hl _ IH].
  - cbn [app counters_stored]. rewrite Hc. eauto.
  - cbn [app counters_stored]. rewrite Hl. exact IH.
Qed.

(** C9 (as the code has it).  After a call, [execs_done] is the last value
    the call has assigned to it, or what it was when the call has assigned
    none.  The values assigned are the counters, as text, of the lines of
    the first read that start a block and that the loop reaches, in order;
    the first such line is always reached when the lines before it carry no
    counter.  Nothing is compared: [execs_done] does not decrease, as a
    number, when no counter reached is below the value stored before, and
    only then is this sure. *)
Theorem execs_done_is_last_counter (super_populate_stats : M unit)
    (w w0 w' : World) (r : result unit) :
  super_populate_stats w = (Ok tt, w0) ->
  populate_stats super_populate_stats w = (r, w') ->
  execs_done w' = match last (counters_of_call w0) with
                  | Some v => Some v
                  | None => execs_done w0
                  end /\
  (forall v, In v (counters_of_call w0) ->
     exists line, In line (first_read w0) /\ counter_of line = Ok (Some v)) /\
  (forall pre post line v,
     first_read w0 = pre ++ line :: post ->
     Forall (fun l => counter_of l = Ok None) pre ->
     counter_of line = Ok (Some v) ->
     exists more, counters_of_call w0 = v :: more) /\
  (forall a,
     int_of_opt (execs_done w0) = Some a ->
     (forall v, In v (counters_of_call w0) ->
        exists n, int_of_str v = Some n /\ a <= n) ->
     exists b, int_of_opt (execs_done w') = Some b /\ a <= b).
Proof.
  intros Hs H.
  assert (Hlast : execs_done w' = match last (counters_of_call w0) with
                                  | Some v => Some v
                                  | None => execs_done w0
                                  end).
  { unfold populate_stats, bind in H. rewrite Hs in H.
    unfold read_stats in H. unfold bind at 1 in H. unfold get_self at 1 in H.
    unfold counters_of_call.
    destruct (proc (self w0)) as [p|] eqn:Hp; [|by injection H as _ <-].
    destruct (stderr_closed p) eqn:Hc; [by injection H as _ <- |].
    unfold bind in H. rewrite (stderr_readlines_open w0 p Hp Hc) in H.
    by rewrite (scan_lines_last_counter _ _ _ _ _ H). }
  split_and!.
  - exact Hlast.
  - unfold counters_of_call, first_read. intros v.
    destruct (proc (self w0)) as [p|]; [|done].
    destruct (stderr_closed p); [done |]. apply counters_stored_source.
  - unfold counters_of_call, first_read. intros pre post line v.
    destruct (proc (self w0)) as [p|]; [|by destruct pre].
    destruct (stderr_closed p); [by destruct pre |].
    intros -> Hpre Hc. by apply counters_stored_first.
  - intros a Ha Hall. rewrite Hlast.
    destruct (last (counters_of_call w0)) as [v|] eqn:Hl.
    + apply last_Some in Hl as [l' Hl'].
      destruct (Hall v) as (n & Hn & Hle).
      { rewrite Hl'. apply in_app_iff. right. by left. }
      exists n. by split.
    + exists a. split; [exact Ha | lia].
Qed.

Lemma execs_done_is_last_counter_witness :
  let w := snd (populate_stats (ret tt) (running stream_restart)) in
  let w' := snd (populate_stats (ret tt) w) in
  ret tt w = (Ok tt, w) /\
  populate_stats (ret tt) w = (Ok tt, w') /\
  execs_done w' = match last (counters_of_call w) with
                  | Some v => Some v
                  | None => execs_done w
                  end /\
  (forall v, In v (counters_of_call w) ->
     exists line, In line (first_read w) /\ counter_of line = Ok (Some v)) /\
  (forall pre post line v,
     first_read w = pre ++ line :: post ->
     Forall (fun l => counter_of l = Ok None) pre ->
     counter_of line = Ok (Some v) ->
     exists more, counters_of_call w = v :: more) /\
  (forall a,
     int_of_opt (execs_done w) = Some a ->
     (forall v, In v (counters_of_call w) ->
        exists n, int_of_str v = Some n /\ a <= n) ->
     exists b, int_of_opt (execs_done w') = Some b /\ a <= b).
Proof.
  intros w w'. split; [reflexivity |]. split; [vm_compute; reflexivity |].
  apply (execs_done_is_last_counter (ret tt) w w w' (Ok tt));
    [reflexivity | vm_compute; reflexivity].
Defined.

(** The values assigned during the two calls on the restarted harness: one
    counter in each call, the second below the first. *)
Example counters_of_call_example :
  let w0 := running stream_restart in
  let w1 := snd (populate_stats (ret tt) w0) in
  counters_of_call w0 = ["4096"] /\ counters_of_call w1 = ["2"].
Proof. cbv zeta. split; vm_compute; reflexivity. Qed.

(** C9, refuted as stated: the harness is started again, its counter
    restarts, and the second call stores 2 where the first had stored
    4096. *)
Lemma execs_done_decreases :
  let w0 := running stream_restart in
  let w1 := snd (populate_stats (ret tt) w0) in
  let w2 := snd (populate_stats (ret tt) w1) in
  fst (populate_stats (ret tt) w0) = Ok tt /\
  fst (populate_stats (ret tt) w1) = Ok tt /\
  execs_done w1 = Some "4096" /\
  execs_done w2 = Some "2" /\
  int_of_str "4096" = Some 4096 /\
  int_of_str "2" = Some 2 /\
  2 < 4096.
Proof.
  cbv zeta. repeat split; vm_compute; reflexivity.
Qed.

(** C2, at the failing input: a line without a colon after the start of a
    block.  The read raises [IndexError]; the counter of the block has
    been stored before. *)
Theorem populate_stats_raises_index_error :
  Py.contains ":" l_abort = false /\
  populate_stats (ret tt) (running [l_seed; l_mods; l_init; l_abort])
  = (Raise IndexError,
     block_opened "2" [] (running [l_seed; l_mods; l_init; l_abort])).
Proof. split; [vm_compute; reflexivity | reflexivity]. Qed.

(** In the outer loop a line without the marker is passed over. *)
Lemma scan_lines_ignores_foreign (line : string) (rest : list string) (w : World) :
  Py.startswith "EXTERNAL: " line = false ->
  scan_lines false (line :: rest) w = scan_lines false rest w.
Proof. intros H. cbn [scan_lines]. by rewrite H. Qed.

(** C5, at the failing input: inside a block a line without the marker is
    read like any other.  [INFO: cov: 99] sets [bitmap_cvg]; [WARNING:]
    ends the block, so that the coverage line after it is not read. *)
Theorem foreign_line_in_block_is_read :
  Py.startswith "EXTERNAL: " l_foreign_cov = false /\
  Py.startswith "EXTERNAL: " l_foreign_blank = false /\
  stats_of (snd (populate_stats (ret tt)
                   (running [l_seed; l_mods; l_init; l_foreign_cov])))
  = [("execs_done", "2"); ("bitmap_cvg", "99")] /\
  stats_of (snd (populate_stats (ret tt)
                   (running [l_seed; l_mods; l_init; l_cov])))
  = [("execs_done", "2"); ("bitmap_cvg", "120")] /\
  stats_of (snd (populate_stats (ret tt)
                   (running [l_seed; l_mods; l_init; l_foreign_blank; l_cov])))
  = [("execs_done", "2")].
Proof. repeat split; vm_compute; reflexivity. Qed.

(** * Further properties of [populate_stats] *)

Lemma pipe_advanced_refl (w : World) : pipe_advanced w w.
Proof. unfold pipe_advanced. by destruct (proc (self w)). Qed.

Lemma pipe_advanced_trans (w1 w2 w3 : World) :
  pipe_advanced w1 w2 -> pipe_advanced w2 w3 -> pipe_advanced w1 w3.
Proof.
  unfold pipe_advanced.
  destruct (proc (self w1)) as [p1|], (proc (self w2)) as [p2|],
    (proc (self w3)) as [p3|]; try done.
  intros [H1 H2] [H3 H4]. split; [congruence | by etrans].
Qed.

Lemma stats_step_refl (w : World) : stats_step w w.
Proof.
  unfold stats_step. split_and!; try done.
  - by destruct (self w).
  - apply pipe_advanced_refl.
Qed.

Lemma stats_step_trans (w1 w2 w3 : World) :
  stats_step w1 w2 -> stats_step w2 w3 -> stats_step w1 w3.
Proof.
  intros (Hf1 & Hl1 & Hs1 & Hk1 & Hd1 & Hp1) (Hf2 & Hl2 & Hs2 & Hk2 & Hd2 & Hp2).
  unfold stats_step. split_and!.
  - congruence.
  - congruence.
  - rewrite Hs2 at 1. rewrite Hs1 at 1. by destruct (self w1).
  - intros k Hk. by rewrite Hk2, Hk1.
  - intros k Hk. by apply Hd2, Hd1.
  - by eapply pipe_advanced_trans.
Qed.

Lemma set_stat_step (key v : string) (w : World) :
  In key metric_keys ->
  stats_step w (snd (set_stat key v w)).
Proof.
  intros Hin. unfold set_stat, upd_self. cbn [snd].
  unfold stats_step. split_and!.
  - reflexivity.
  - reflexivity.
  - simpl. by destruct (self w).
  - intros k Hk. simpl. apply lookup_insert_ne. intros ->. by apply Hk.
  - intros k Hk. simpl. destruct (decide (key = k)) as [->|Hne].
    + rewrite lookup_insert_eq. by eexists.
    + by rewrite lookup_insert_ne.
  - unfold pipe_advanced. simpl. by destruct (proc (self w)).
Qed.

Lemma readlines_from_app (hint total : Z) (lines : list string) :
  fst (readlines_from hint total lines) ++ snd (readlines_from hint total lines)
  = lines.
Proof.
  revert total. induction lines as [|line rest IH]; intros total; simpl.
  - reflexivity.
  - destruct (hint - total <? _); [reflexivity |].
    specialize (IH (total + Z.of_nat (String.length line))).
    destruct (readlines_from hint _ rest) as [taken remaining].
    simpl in *. by rewrite IH.
Qed.

(** A read splits the pipe: the lines taken, then the lines left. *)
Lemma readlines_app (hint : Z) (lines : list string) :
  fst (readlines hint lines) ++ snd (readlines hint lines) = lines.
Proof. apply readlines_from_app. Qed.

Lemma stderr_readlines_step (w : World) :
  stats_step w (snd (stderr_readlines 100 w)).
Proof.
  unfold stderr_readlines, bind, get_self.
  destruct (proc (self w)) as [p|] eqn:Hp; [|apply stats_step_refl].
  destruct (stderr_closed p) eqn:Hc; [apply stats_step_refl |].
  pose proof (readlines_app 100 (stderr_lines p)) as Happ.
  destruct (readlines 100 (stderr_lines p)) as [taken remaining].
  simpl in Happ. cbn.
  unfold stats_step. split_and!; try done; try (by destruct (self w)).
  unfold pipe_advanced. cbn. rewrite Hp. cbn. split; [done |].
  exists taken. by rewrite Happ.
Qed.

Lemma store_metric_step (line : string) (w : World) :
  stats_step w (snd (store_metric line w)).
Proof.
  unfold store_metric.
  destruct (Py.contains ": " line); [|apply stats_step_refl].
  unfold bind at 1. unfold lift at 1.
  destruct (Py.getitem _ 0) as [key|e]; [|apply stats_step_refl].
  unfold bind at 1. unfold lift at 1.
  destruct (Py.getitem _ 1) as [value|e]; [|apply stats_step_refl].
  repeat (match goal with
          | |- context [if String.eqb key ?k then _ else _] =>
              destruct (String.eqb key k)
          end;
          [ unfold bind at 1; unfold lift at 1;
            destruct (Py.decode value) as [v|e]; [|apply stats_step_refl];
            apply set_stat_step; unfold metric_keys; simpl; tauto
          | ]).
  apply stats_step_refl.
Qed.

Lemma read_block_step (done_reading : bool) (lines : list string) (w : World) :
  stats_step w (snd (read_block done_reading lines w)).
Proof.
  revert w. induction lines as [|line lines IH]; intros w.
  - apply stats_step_refl.
  - cbn [read_block]. unfold bind at 1. unfold lift at 1.
    destruct (Py.getitem _ 1) as [part|e]; [|apply stats_step_refl].
    destruct (_ || _); [apply stats_step_refl |].
    unfold bind. pose proof (store_metric_step (Py.strip part) w) as Hs.
    destruct (store_metric (Py.strip part) w) as [[[]|e] w1]; simpl in Hs.
    + eapply stats_step_trans; [exact Hs | apply IH].
    + exact Hs.
Qed.

Lemma scan_lines_step (done_reading : bool) (lines : list string) (w : World) :
  stats_step w (snd (scan_lines done_reading lines w)).
Proof.
  revert done_reading w. induction lines as [|line rest IH]; intros d w.
  - apply stats_step_refl.
  - destruct d; [rewrite scan_lines_done; apply stats_step_refl |].
    destruct (counter_of line) as [[v|]|e] eqn:Hc.
    + rewrite (scan_lines_cons_start line rest v w Hc).
      unfold bind at 1.
      pose proof (set_stat_step "execs_done" v w) as H1.
      destruct (set_stat "execs_done" v w) as [[[]|e] wa] eqn:Ha;
        [|discriminate Ha].
      simpl in H1. specialize (H1 ltac:(unfold metric_keys; simpl; tauto)).
      unfold bind at 1. pose proof (stderr_readlines_step wa) as H2.
      destruct (stderr_readlines 100 wa) as [[block|e] wb]; simpl in H2.
      * unfold bind at 1. pose proof (read_block_step false block wb) as H3.
        destruct (read_block false block wb) as [[d'|e] wc]; simpl in H3.
        -- eapply stats_step_trans; [exact H1 |].
           eapply stats_step_trans; [exact H2 |].
           eapply stats_step_trans; [exact H3 | apply IH].
        -- simpl. eapply stats_step_trans; [exact H1 |].
           eapply stats_step_trans; [exact H2 | exact H3].
      * simpl. eapply stats_step_trans; [exact H1 | exact H2].
    + rewrite (scan_lines_cons_skip line rest w Hc). apply IH.
    + rewrite (scan_lines_cons_raise line rest e w Hc). apply stats_step_refl.
Qed.

Lemma read_stats_step (w : World) : stats_step w (snd (read_stats w)).
Proof.
  unfold read_stats. unfold bind at 1. unfold get_self at 1.
  destruct (proc (self w)) as [p|]; [|apply stats_step_refl].
  destruct (stderr_closed p); [apply stats_step_refl |].
  unfold bind. pose proof (stderr_readlines_step w) as H1.
  destruct (stderr_readlines 100 w) as [[lines|e] wa]; simpl in H1.
  - eapply stats_step_trans; [exact H1 | apply scan_lines_step].
  - exact H1.
Qed.

Lemma populate_stats_step (super_populate_stats : M unit) (w : World) :
  stats_step (snd (super_populate_stats w))
             (snd (populate_stats super_populate_stats w)).
Proof.
  unfold populate_stats, bind.
  destruct (super_populate_stats w) as [[[]|e] w0]; simpl.
  - apply read_stats_step.
  - apply stats_step_refl.
Qed.

(** X1.  Reading the statistics leaves the file system, the log and the
    configuration alone: after [populate_stats] the object differs from what
    the base method left by its statistics and its pipe only, so that [cmd]
    gives the same argument vector (or raises the same exception). *)
Theorem populate_stats_keeps_command (super_populate_stats : M unit) (w : World) :
  let w0 := snd (super_populate_stats w) in
  let w' := snd (populate_stats super_populate_stats w) in
  fs w' = fs w0 /\
  log w' = log w0 /\
  self w' = set_proc (proc (self w')) (set_stats (stats (self w')) (self w0)) /\
  cmd (self w') = cmd (self w0).
Proof.
  intros w0 w'.
  destruct (populate_stats_step super_populate_stats w)
    as (Hf & Hl & Hs & _).
  fold w0 w' in Hf, Hl, Hs. split_and!; try done.
  rewrite Hs. reflexivity.
Qed.

(** X2.  The reader writes under four names only, and never removes an
    entry: every statistic stored under another name is the same after the
    call, and every name that had a value still has one. *)
Theorem populate_stats_writes_metrics_only (super_populate_stats : M unit)
    (w : World) (k : string) :
  let w0 := snd (super_populate_stats w) in
  let w' := snd (populate_stats super_populate_stats w) in
  (~ In k ["execs_done"; "execs_per_sec"; "paths_total"; "bitmap_cvg"] ->
   stats (self w') !! k = stats (self w0) !! k) /\
  (is_Some (stats (self w0) !! k) -> is_Some (stats (self w') !! k)).
Proof.
  intros w0 w'.
  destruct (populate_stats_step super_populate_stats w)
    as (_ & _ & _ & Hk & Hd & _).
  split; [apply Hk | apply Hd].
Qed.

Lemma populate_stats_writes_metrics_only_witness :
  let w0 := snd (ret tt world_two_blocks) in
  let w' := snd (populate_stats (ret tt) world_two_blocks) in
  (~ In "unique_crashes"
        ["execs_done"; "execs_per_sec"; "paths_total"; "bitmap_cvg"] ->
   stats (self w') !! "unique_crashes" = stats (self w0) !! "unique_crashes") /\
  (is_Some (stats (self w0) !! "unique_crashes") ->
   is_Some (stats (self w') !! "unique_crashes")).
Proof.
  exact (populate_stats_writes_metrics_only (ret tt) world_two_blocks
           "unique_crashes").
Defined.

Lemma readlines_from_takes (hint total : Z) (line : string) (rest : list string) :
  fst (readlines_from hint total (line :: rest)) <> [].
Proof.
  simpl. destruct (hint - total <? _); [done |].
  by destruct (readlines_from hint _ rest).
Qed.

Lemma suffix_length_le {A} (l1 l2 : list A) :
  suffix l1 l2 -> (length l1 <= length l2)%nat.
Proof. intros [k ->]. rewrite length_app. lia. Qed.

(** X3.  A call only takes lines from the front of the pipe: what is left
    afterwards is a final segment of what was there, and when the pipe is
    open and holds a line, at least one line is taken. *)
Theorem populate_stats_consumes_pipe (super_populate_stats : M unit)
    (w w0 : World) (p : Proc) :
  super_populate_stats w = (Ok tt, w0) ->
  proc (self w0) = Some p ->
  stderr_closed p = false ->
  stderr_lines p <> [] ->
  let w' := snd (populate_stats super_populate_stats w) in
  suffix (pipe_of w') (stderr_lines p) /\
  (length (pipe_of w') < length (stderr_lines p))%nat.
Proof.
  intros Hs Hp Hc Hne w'.
  assert (Hw : w' = snd (scan_lines false (fst (readlines 100 (stderr_lines p)))
                           (after_one_read w0 p))).
  { unfold w', populate_stats, bind. rewrite Hs.
    unfold read_stats. unfold bind at 1. unfold get_self at 1.
    rewrite Hp, Hc. unfold bind.
    by rewrite (stderr_readlines_open w0 p Hp Hc). }
  pose proof (scan_lines_step false (fst (readlines 100 (stderr_lines p)))
                (after_one_read w0 p)) as (_ & _ & _ & _ & _ & Hpipe).
  rewrite <- Hw in Hpipe. unfold pipe_advanced in Hpipe.
  cbn [after_one_read self proc set_proc] in Hpipe.
  unfold pipe_of. destruct (proc (self w')) as [p'|]; [|done].
  destruct Hpipe as [_ Hsuf]. cbn in Hsuf.
  pose proof (readlines_app 100 (stderr_lines p)) as Happ.
  assert (Htake : fst (readlines 100 (stderr_lines p)) <> []).
  { destruct (stderr_lines p) as [|line rest]; [done |].
    apply readlines_from_takes. }
  split.
  - etrans; [exact Hsuf |].
    exists (fst (readlines 100 (stderr_lines p))). by rewrite Happ.
  - apply suffix_length_le in Hsuf.
    apply (f_equal length) in Happ. rewrite length_app in Happ.
    destruct (fst (readlines 100 (stderr_lines p))); [done |].
    simpl in Happ. lia.
Qed.

Lemma populate_stats_consumes_pipe_witness :
  let p := MkProc false stream_two_blocks in
  let w' := snd (populate_stats (ret tt) world_two_blocks) in
  ret tt world_two_blocks = (Ok tt, world_two_blocks) /\
  proc (self world_two_blocks) = Some p /\
  stderr_closed p = false /\
  stderr_lines p <> [] /\
  suffix (pipe_of w') (stderr_lines p) /\
  (length (pipe_of w') < length (stderr_lines p))%nat.
Proof.
  intros p w'.
  split; [reflexivity |]. split; [reflexivity |]. split; [reflexivity |].
  split; [discriminate |].
  apply (populate_stats_consumes_pipe (ret tt) world_two_blocks
           world_two_blocks p); [reflexivity | reflexivity | reflexivity |].
  discriminate.
Defined.

(** X4.  With nothing to read the call is a no-operation: when there is no
    child process, when the file object of its standard error is closed, or
    when the pipe is at end of file (the child has ended or closed it, and
    every line has been read), the call returns normally and the world is as
    the base method left it. *)
Theorem populate_stats_nothing_to_read (super_populate_stats : M unit)
    (w w0 : World) :
  super_populate_stats w = (Ok tt, w0) ->
  match proc (self w0) with
  | None => True
  | Some p => stderr_closed p = true \/ p = MkProc false []
  end ->
  populate_stats super_populate_stats w = (Ok tt, w0).
Proof.
  intros Hs H. unfold populate_stats, bind. rewrite Hs.
  unfold read_stats. unfold bind at 1. unfold get_self at 1.
  destruct (proc (self w0)) as [p|] eqn:Hp; [|reflexivity].
  destruct H as [Hc | ->]; [by rewrite Hc |].
  cbn [stderr_closed]. unfold bind.
  rewrite (stderr_readlines_open w0 _ Hp eq_refl). cbn.
  f_equal. destruct w0 as [o f l]. cbn in *. f_equal.
  destruct o. cbn in *. by rewrite Hp.
Qed.

Lemma populate_stats_nothing_to_read_witness :
  let w := running [] in
  ret tt w = (Ok tt, w) /\
  match proc (self w) with
  | None => True
  | Some p => stderr_closed p = true \/ p = MkProc false []
  end /\
  populate_stats (ret tt) w = (Ok tt, w).
Proof.
  intros w. split; [reflexivity |]. split; [right; reflexivity |].
  apply (populate_stats_nothing_to_read (ret tt) w w);
    [reflexivity | right; reflexivity].
Defined.

Lemma scan_lines_no_block (lines : list string) (w : World) :
  Forall (fun line => counter_of line = Ok None) lines ->
  scan_lines false lines w = (Ok tt, w).
Proof.
  induction 1 as [|line rest Hline _ IH]; [reflexivity |].
  by rewrite (scan_lines_cons_skip line rest w Hline).
Qed.

(** X5.  While no line starts a block the reader only reads past: when no
    line of the first read carries the marker followed by a number sign,
    the call returns normally, stores nothing and makes no second read. *)
Theorem populate_stats_scanning (super_populate_stats : M unit)
    (w w0 : World) (p : Proc) :
  super_populate_stats w = (Ok tt, w0) ->
  proc (self w0) = Some p ->
  stderr_closed p = false ->
  Forall (fun line => counter_of line = Ok None)
         (fst (readlines 100 (stderr_lines p))) ->
  populate_stats super_populate_stats w = (Ok tt, after_one_read w0 p).
Proof.
  intros Hs Hp Hc Hall. unfold populate_stats, bind. rewrite Hs.
  unfold read_stats. unfold bind at 1. unfold get_self at 1.
  rewrite Hp, Hc. unfold bind.
  rewrite (stderr_readlines_open w0 p Hp Hc).
  by apply scan_lines_no_block.
Qed.

Lemma populate_stats_scanning_witness :
  let w := running stream_chatter in
  let p := MkProc false stream_chatter in
  ret tt w = (Ok tt, w) /\
  proc (self w) = Some p /\
  stderr_closed p = false /\
  Forall (fun line => counter_of line = Ok None)
         (fst (readlines 100 (stderr_lines p))) /\
  populate_stats (ret tt) w = (Ok tt, after_one_read w p).
Proof.
  intros w p.
  assert (H : Forall (fun line => counter_of line = Ok None)
                     (fst (readlines 100 (stderr_lines p)))).
  { replace (fst (readlines 100 (stderr_lines p)))
      with [l_seed; l_abort; l_mods] by (vm_compute; reflexivity).
    repeat (constructor; [vm_compute; reflexivity |]). constructor. }
  split; [reflexivity |]. split; [reflexivity |]. split; [reflexivity |].
  split; [exact H |].
  apply (populate_stats_scanning (ret tt) w w p);
    [reflexivity | reflexivity | reflexivity | exact H].
Defined.

(** X6.  [done_reading] is set by the end of a block and by nothing else:
    when the inner loop returns with the flag set, one of the lines it was
    given has nothing but white space after its first colon. *)
Theorem read_block_done_by_block_end (lines : list string) (w w' : World) :
  read_block false lines w = (Ok true, w') ->
  exists l, In l lines /\ block_end l = true.
Proof.
  revert w. induction lines as [|line rest IH]; intros w.
  - cbn. unfold ret. intros [= ].
  - cbn [read_block]. unfold bind at 1. unfold lift at 1.
    destruct (Py.getitem (Py.split1 ":" line) 1) as [part|e] eqn:Hg;
      [|discriminate].
    destruct (negb (Py.nonempty (Py.strip part))
              || String.eqb (Py.strip part) LF) eqn:Hend.
    + intros _. exists line. split; [by left |].
      unfold block_end. by rewrite Hg.
    + unfold bind.
      destruct (store_metric (Py.strip part) w) as [[[]|e] w1]; [|discriminate].
      intros H. destruct (IH _ H) as (l & Hin & Hl).
      exists l. split; [by right | exact Hl].
Qed.

Lemma read_block_done_by_block_end_witness :
  let w := running [] in
  read_block false [l_rate; l_end; l_pulse] w
    = (Ok true, snd (read_block false [l_rate; l_end; l_pulse] w)) /\
  exists l, In l [l_rate; l_end; l_pulse] /\ block_end l = true.
Proof.
  intros w.
  assert (H : read_block false [l_rate; l_end; l_pulse] w
              = (Ok true, snd (read_block false [l_rate; l_end; l_pulse] w)))
    by reflexivity.
  split; [exact H |].
  exact (read_block_done_by_block_end [l_rate; l_end; l_pulse] w _ H).
Defined.

(** * Lines that cannot make the reader raise *)

Lemma utf8_valid_fuel_ascii (s : string) (fuel : nat) :
  all_ascii s = true -> (String.length s < fuel)%nat ->
  Py.utf8_valid_fuel fuel s = true.
Proof.
  revert fuel. induction s as [|c s IH]; intros fuel Ha Hf.
  - destruct fuel; [simpl in Hf; lia | reflexivity].
  - destruct fuel as [|fuel]; [simpl in Hf; lia |].
    simpl in Ha. apply andb_true_iff in Ha as [Hc Ha].
    cbn [Py.utf8_valid_fuel]. unfold Py.in_range at 1.
    rewrite Hc. simpl andb. cbn iota.
    apply IH; [exact Ha | simpl in Hf; lia].
Qed.

(** ASCII text decodes to itself. *)
Lemma decode_ascii (s : string) : all_ascii s = true -> Py.decode s = Ok s.
Proof.
  intros Ha. unfold Py.decode, Py.utf8_valid.
  rewrite utf8_valid_fuel_ascii; [reflexivity | exact Ha | lia].
Qed.

Lemma all_ascii_drop (n : nat) (s : string) :
  all_ascii s = true -> all_ascii (Py.drop_str n s) = true.
Proof.
  revert s. induction n as [|n IH]; intros s Ha; [exact Ha |].
  destruct s as [|c s]; [reflexivity |]. simpl in *.
  apply andb_true_iff in Ha as [_ Ha]. by apply IH.
Qed.

Lemma all_ascii_partition (sep s a b : string) :
  all_ascii s = true -> Py.partition sep s = Some (a, b) ->
  all_ascii a = true /\ all_ascii b = true.
Proof.
  revert a b. induction s as [|c s IH]; intros a b Ha.
  - simpl. destruct (Py.startswith sep EmptyString); [|discriminate].
    intros [= <- <-]. split; [reflexivity |]. by apply all_ascii_drop.
  - cbn [Py.partition]. destruct (Py.startswith sep (String c s)).
    + intros [= <- <-]. split; [reflexivity |]. by apply all_ascii_drop.
    + simpl in Ha. apply andb_true_iff in Ha as [Hc Ha].
      destruct (Py.partition sep s) as [[a' b']|]; [|discriminate].
      intros [= <- <-]. destruct (IH a' b' Ha eq_refl) as [Ha' Hb'].
      split; [simpl; by rewrite Hc, Ha' | exact Hb'].
Qed.

Lemma all_ascii_lstrip (f : ascii -> bool) (s : string) :
  all_ascii s = true -> all_ascii (Py.lstrip_by f s) = true.
Proof.
  induction s as [|c s IH]; intros Ha; [reflexivity |].
  simpl. destruct (f c); [|exact Ha].
  simpl in Ha. apply andb_true_iff in Ha as [_ Ha]. by apply IH.
Qed.

Lemma all_ascii_rstrip (f : ascii -> bool) (s : string) :
  all_ascii s = true -> all_ascii (Py.rstrip_by f s) = true.
Proof.
  induction s as [|c s IH]; intros Ha; [reflexivity |].
  simpl in Ha. apply andb_true_iff in Ha as [Hc Ha]. specialize (IH Ha).
  simpl. destruct (Py.rstrip_by f s) as [|c' r].
  - destruct (f c); [reflexivity |]. simpl. by rewrite Hc.
  - simpl. simpl in IH. by rewrite Hc, IH.
Qed.

Lemma all_ascii_strip_by (f : ascii -> bool) (s : string) :
  all_ascii s = true -> all_ascii (Py.strip_by f s) = true.
Proof. intros Ha. unfold Py.strip_by. by apply all_ascii_rstrip, all_ascii_lstrip. Qed.

Lemma all_ascii_of_list (l : list ascii) :
  Forall (fun c => (nat_of_ascii c <=? 127)%nat = true) l ->
  all_ascii (String.string_of_list_ascii l) = true.
Proof.
  induction 1 as [|c l Hc _ IH]; [reflexivity |]. simpl. by rewrite Hc, IH.
Qed.

Lemma all_ascii_split_ws_aux (s : string) (cur : list ascii) :
  Forall (fun c => (nat_of_ascii c <=? 127)%nat = true) cur ->
  all_ascii s = true ->
  Forall (fun t => all_ascii t = true) (Py.split_ws_aux cur s).
Proof.
  revert cur. induction s as [|c s IH]; intros cur Hcur Ha.
  - simpl. destruct cur as [|x cur]; [constructor |].
    constructor; [|constructor]. apply all_ascii_of_list.
    by apply Forall_rev.
  - simpl in Ha. apply andb_true_iff in Ha as [Hc Ha]. simpl.
    destruct (Py.isspace c).
    + destruct cur as [|x cur]; [by apply IH |].
      constructor; [|by apply IH].
      apply all_ascii_of_list. by apply Forall_rev.
    + apply IH; [|exact Ha]. by constructor.
Qed.

Lemma split_ws_aux_nonempty (s : string) (cur : list ascii) :
  cur <> [] -> Py.split_ws_aux cur s <> [].
Proof.
  revert cur. induction s as [|c s IH]; intros cur Hcur.
  - simpl. by destruct cur.
  - simpl. destruct (Py.isspace c).
    + by destruct cur.
    + by apply IH.
Qed.

(** The text after the marker of a line that starts a block has a first
    word. *)
Lemma split_ws_first (s : string) :
  Py.startswith "#" s = true ->
  exists tok rest, Py.split_ws s = tok :: rest.
Proof.
  destruct s as [|c s]; [discriminate |]. simpl. intros H.
  apply andb_true_iff in H as [Hc _]. apply Ascii.eqb_eq in Hc. subst c.
  unfold Py.split_ws. simpl.
  pose proof (split_ws_aux_nonempty s ["#"%char] ltac:(done)) as Hne.
  destruct (Py.split_ws_aux ["#"%char] s) as [|tok rest]; [done | eauto].
Qed.

Lemma contains_getitem (sep s : string) :
  Py.contains sep s = true ->
  exists a b, Py.partition sep s = Some (a, b) /\
              Py.split1 sep s = [a; b].
Proof.
  unfold Py.contains, Py.split1.
  destruct (Py.partition sep s) as [[a b]|]; [|discriminate]. eauto.
Qed.

(** On a plain line the expressions of lines 143 to 147 do not raise. *)
Lemma counter_of_plain (line : string) :
  plain_line line = true -> exists c, counter_of line = Ok c.
Proof.
  unfold plain_line. intros H. apply andb_true_iff in H as [Hc Ha].
  destruct (contains_getitem ":" line Hc) as (a & b & Hp & Hs).
  destruct (all_ascii_partition _ _ _ _ Ha Hp) as [_ Hb].
  unfold counter_of. destruct (Py.startswith "EXTERNAL: " line); [|eauto].
  rewrite Hs. change (Py.getitem [a; b] 1) with (Ok b). cbn iota.
  destruct (Py.startswith "#" (Py.strip b)) eqn:Hh; [|eauto].
  destruct (split_ws_first _ Hh) as (tok & rest & Hw). rewrite Hw.
  change (Py.getitem (tok :: rest) 0) with (Ok tok). cbn iota.
  assert (Htok : all_ascii tok = true).
  { assert (Hall : Forall (fun t => all_ascii t = true) (Py.split_ws (Py.strip b))).
    { apply all_ascii_split_ws_aux; [constructor |].
      by apply all_ascii_strip_by. }
    rewrite Hw in Hall. by inversion Hall. }
  rewrite decode_ascii
    by (unfold Py.strip_chars; by apply all_ascii_strip_by).
  eauto.
Qed.

Lemma store_metric_plain (line : string) (w : World) :
  all_ascii line = true -> fst (store_metric line w) = Ok tt.
Proof.
  intros Ha. unfold store_metric.
  destruct (Py.contains ": " line) eqn:Hc; [|reflexivity].
  destruct (contains_getitem ": " line Hc) as (key & value & Hp & Hs).
  destruct (all_ascii_partition _ _ _ _ Ha Hp) as [_ Hv].
  rewrite Hs. unfold bind, lift.
  change (Py.getitem [key; value] 0) with (Ok key).
  change (Py.getitem [key; value] 1) with (Ok value). cbn iota.
  rewrite (decode_ascii value Hv).
  destruct (String.eqb key "exec/s"); [reflexivity |].
  destruct (String.eqb key "units"); [reflexivity |].
  destruct (String.eqb key "cov"); reflexivity.
Qed.

Lemma read_block_plain (done_reading : bool) (lines : list string) (w : World) :
  Forall (fun line => plain_line line = true) lines ->
  exists d, fst (read_block done_reading lines w) = Ok d.
Proof.
  intros Hall. revert w.
  induction Hall as [|line rest Hline _ IH]; intros w; [by eexists |].
  unfold plain_line in Hline. apply andb_true_iff in Hline as [Hc Ha].
  destruct (contains_getitem ":" line Hc) as (a & b & Hp & Hs).
  destruct (all_ascii_partition _ _ _ _ Ha Hp) as [_ Hb].
  cbn [read_block]. rewrite Hs. unfold bind at 1. unfold lift at 1.
  change (Py.getitem [a; b] 1) with (Ok b). cbn iota.
  destruct (_ || _); [by eexists |].
  unfold bind.
  pose proof (store_metric_plain (Py.strip b) w
                (all_ascii_strip_by _ _ Hb)) as Hm.
  destruct (store_metric (Py.strip b) w) as [[[]|e] w1]; [|discriminate Hm].
  apply IH.
Qed.

(** The pipe of [w] is open and holds plain lines only. *)
Lemma plain_pipe_step (w w' : World) (p : Proc) :
  proc (self w) = Some p -> stderr_closed p = false ->
  Forall (fun line => plain_line line = true) (stderr_lines p) ->
  stats_step w w' ->
  exists p', proc (self w') = Some p' /\ stderr_closed p' = false /\
             Forall (fun line => plain_line line = true) (stderr_lines p').
Proof.
  intros Hp Hc Hall (_ & _ & _ & _ & _ & Hpipe).
  unfold pipe_advanced in Hpipe. rewrite Hp in Hpipe.
  destruct (proc (self w')) as [p'|]; [|done].
  destruct Hpipe as [Hc' [k Hk]]. exists p'. split; [done |].
  split; [congruence |]. rewrite Hk in Hall.
  by apply Forall_app in Hall as [_ Hall].
Qed.

Lemma scan_lines_plain (lines : list string) (d : bool) (w : World) (p : Proc) :
  proc (self w) = Some p -> stderr_closed p = false ->
  Forall (fun line => plain_line line = true) (stderr_lines p) ->
  Forall (fun line => plain_line line = true) lines ->
  fst (scan_lines d lines w) = Ok tt.
Proof.
  intros Hp Hc Hpipe Hall. revert d w p Hp Hc Hpipe.
  induction Hall as [|line rest Hline _ IH]; intros d w p Hp Hc Hpipe;
    [reflexivity |].
  destruct d; [by rewrite scan_lines_done |].
  destruct (counter_of_plain line Hline) as [[v|] Hv].
  - rewrite (scan_lines_cons_start line rest v w Hv).
    unfold bind at 1.
    pose proof (set_stat_step "execs_done" v w
                  ltac:(unfold metric_keys; simpl; tauto)) as H1.
    destruct (set_stat "execs_done" v w) as [[[]|e] wa] eqn:Ha;
      [|discriminate Ha].
    simpl in H1.
    destruct (plain_pipe_step w wa p Hp Hc Hpipe H1) as (pa & Hpa & Hca & Halla).
    unfold bind at 1. rewrite (stderr_readlines_open wa pa Hpa Hca).
    set (wb := MkWorld _ (fs wa) (log wa)).
    pose proof (readlines_app 100 (stderr_lines pa)) as Happ.
    rewrite <- Happ in Halla. apply Forall_app in Halla as [Htaken Hleft].
    unfold bind at 1.
    destruct (read_block_plain false _ wb Htaken) as [d' Hd'].
    pose proof (read_block_step false (fst (readlines 100 (stderr_lines pa))) wb)
      as H3.
    destruct (read_block false (fst (readlines 100 (stderr_lines pa))) wb)
      as [[d''|e] wc]; [|discriminate Hd'].
    simpl in H3.
    destruct (plain_pipe_step wb wc
                (MkProc false (snd (readlines 100 (stderr_lines pa))))
                eq_refl eq_refl Hleft H3) as (pc & Hpc & Hcc & Hallc).
    by apply (IH d'' wc pc).
  - rewrite (scan_lines_cons_skip line rest w Hv). by apply (IH false w p).
Qed.

(** X7.  Lines in ASCII that all have a colon never make the reader raise:
    when every line the pipe holds is such a line, [populate_stats] returns
    normally whenever the base method does. *)
Theorem populate_stats_plain_lines (super_populate_stats : M unit)
    (w w0 : World) (p : Proc) :
  super_populate_stats w = (Ok tt, w0) ->
  proc (self w0) = Some p ->
  Forall (fun line => plain_line line = true) (stderr_lines p) ->
  fst (populate_stats super_populate_stats w) = Ok tt.
Proof.
  intros Hs Hp Hall. unfold populate_stats, bind. rewrite Hs.
  unfold read_stats. unfold bind at 1. unfold get_self at 1. rewrite Hp.
  destruct (stderr_closed p) eqn:Hc; [reflexivity |].
  unfold bind. rewrite (stderr_readlines_open w0 p Hp Hc).
  pose proof (readlines_app 100 (stderr_lines p)) as Happ.
  rewrite <- Happ in Hall. apply Forall_app in Hall as [Htaken Hleft].
  by apply (scan_lines_plain _ false _
              (MkProc false (snd (readlines 100 (stderr_lines p))))).
Qed.

Lemma populate_stats_plain_lines_witness :
  let p := MkProc false stream_restart in
  ret tt world_restart = (Ok tt, world_restart) /\
  proc (self world_restart) = Some p /\
  Forall (fun line => plain_line line = true) (stderr_lines p) /\
  fst (populate_stats (ret tt) world_restart) = Ok tt.
Proof.
  intros p.
  assert (H : Forall (fun line => plain_line line = true) (stderr_lines p)).
  { unfold p, stream_restart. cbn [stderr_lines].
    repeat (constructor; [vm_compute; reflexivity |]). constructor. }
  split; [reflexivity |]. split; [reflexivity |]. split; [exact H |].
  apply (populate_stats_plain_lines (ret tt) world_restart world_restart p);
    [reflexivity | reflexivity | exact H].
Defined.

(** * Well-formed lines *)

Lemma rstrip_by_cons (f : ascii -> bool) (c : ascii) (s : string) :
  f c = false \/ Py.rstrip_by f s <> EmptyString ->
  Py.rstrip_by f (String c s) = String c (Py.rstrip_by f s).
Proof.
  intros H. simpl. destruct (Py.rstrip_by f s) as [|c' r].
  - destruct H as [-> | H]; [reflexivity | done].
  - reflexivity.
Qed.

Lemma rstrip_by_app (f : ascii -> bool) (n t : string) :
  (forall c, In c (String.list_ascii_of_string n) -> f c = false) ->
  Py.rstrip_by f (n +:+ t) = n +:+ Py.rstrip_by f t.
Proof.
  induction n as [|c n IH]; intros H; [reflexivity |].
  rewrite !string_app_cons. rewrite rstrip_by_cons.
  - rewrite IH; [reflexivity |]. intros c' Hc'. apply H. simpl. by right.
  - left. apply H. simpl. by left.
Qed.

Lemma token_chars (n : string) (c : ascii) :
  token n = true -> In c (String.list_ascii_of_string n) ->
  Py.isspace c = false /\ (nat_of_ascii c <=? 127)%nat = true.
Proof.
  induction n as [|x n IH]; simpl; [done |]. intros H [-> | Hin].
  - apply andb_true_iff in H as [H _]. apply andb_true_iff in H as [H1 H2].
    by apply negb_true_iff in H2.
  - apply andb_true_iff in H as [_ H]. by apply IH.
Qed.

Lemma token_all_ascii (n : string) : token n = true -> all_ascii n = true.
Proof.
  induction n as [|x n IH]; simpl; [done |]. intros H.
  apply andb_true_iff in H as [H H']. apply andb_true_iff in H as [H1 _].
  by rewrite H1, IH.
Qed.

Lemma rstrip_token (n : string) : token n = true -> Py.rstrip_by Py.isspace n = n.
Proof.
  intros H. rewrite <- (string_app_nil_r n) at 1.
  rewrite rstrip_by_app; [by rewrite string_app_nil_r |].
  intros c Hc. by destruct (token_chars n c H Hc).
Qed.

Lemma split_ws_aux_token (n t : string) (cur : list ascii) :
  token n = true ->
  Py.split_ws_aux cur (n +:+ t)
  = Py.split_ws_aux (rev (String.list_ascii_of_string n) ++ cur) t.
Proof.
  revert cur. induction n as [|x n IH]; intros cur H; [reflexivity |].
  rewrite string_app_cons. simpl in H.
  apply andb_true_iff in H as [H H']. apply andb_true_iff in H as [_ Hx].
  apply negb_true_iff in Hx. cbn [Py.split_ws_aux]. rewrite Hx.
  rewrite IH by exact H'. cbn [String.list_ascii_of_string rev].
  by rewrite <- app_assoc.
Qed.

Lemma strip_hash_no_hash (n : string) :
  no_hash n = true -> Py.strip_chars "#" n = n.
Proof.
  intros H. unfold Py.strip_chars, Py.strip_by.
  assert (Hl : Py.lstrip_by (fun c => Py.mem_ascii c "#") n = n).
  { destruct n as [|c n]; [reflexivity |]. simpl in *.
    apply andb_true_iff in H as [Hc _]. apply negb_true_iff in Hc.
    by rewrite Hc. }
  rewrite Hl. rewrite <- (string_app_nil_r n) at 1.
  rewrite rstrip_by_app; [by rewrite string_app_nil_r |].
  intros c Hc. clear Hl. induction n as [|x n IH]; [done |].
  simpl in H. apply andb_true_iff in H as [Hx H]. apply negb_true_iff in Hx.
  destruct Hc as [<- | Hc]; [simpl; by rewrite Hx | by apply IH].
Qed.

(** The counter of a line [EXTERNAL: #n] followed by white space. *)
Lemma counter_of_start_line (n rest : string) (c : ascii) :
  token n = true ->
  no_hash n = true ->
  Py.isspace c = true ->
  counter_of ("EXTERNAL: #" +:+ n +:+ String c rest) = Ok (Some n).
Proof.
  intros Hn Hh Hc. unfold counter_of.
  set (tail := n +:+ String c rest).
  change ("EXTERNAL: #" +:+ tail)
    with (String "E" (String "X" (String "T" (String "E" (String "R"
         (String "N" (String "A" (String "L" (String ":" (String " "
         (String "#" tail))))))))))).
  change (Py.startswith "EXTERNAL: " _) with true. cbn iota.
  change (Py.getitem (Py.split1 ":" _) 1) with (Ok (String " " (String "#" tail))).
  cbn iota.
  assert (Hstrip : Py.strip (String " " (String "#" tail))
                   = String "#" (n +:+ Py.rstrip_by Py.isspace (String c rest))).
  { unfold Py.strip, Py.strip_by.
    change (Py.lstrip_by Py.isspace (String " " (String "#" tail)))
      with (String "#" tail).
    rewrite rstrip_by_cons by (by left). unfold tail.
    rewrite rstrip_by_app; [reflexivity |].
    intros x Hx. by destruct (token_chars n x Hn Hx). }
  rewrite Hstrip.
  change (Py.startswith "#" (String "#" _)) with true. cbn iota.
  assert (Htok : exists more,
             Py.split_ws (String "#" (n +:+ Py.rstrip_by Py.isspace (String c rest)))
             = String "#" n :: more).
  { unfold Py.split_ws. cbn [Py.split_ws_aux].
    change (Py.isspace "#") with false. cbn iota.
    rewrite split_ws_aux_token by exact Hn.
    assert (Hword : String.string_of_list_ascii
                      (rev (rev (String.list_ascii_of_string n) ++ ["#"%char]))
                    = String "#" n).
    { rewrite rev_app_distr, rev_involutive. simpl.
      by rewrite String.string_of_list_ascii_of_string. }
    simpl Py.rstrip_by.
    destruct (Py.rstrip_by Py.isspace rest) as [|c' r].
    - rewrite Hc. simpl. rewrite Hword.
      destruct (rev (String.list_ascii_of_string n) ++ ["#"%char]) eqn:E;
        [by destruct (rev (String.list_ascii_of_string n)) | eauto].
    - cbn [Py.split_ws_aux]. rewrite Hc. rewrite Hword.
      destruct (rev (String.list_ascii_of_string n) ++ ["#"%char]) eqn:E;
        [by destruct (rev (String.list_ascii_of_string n)) | eauto]. }
  destruct Htok as [more ->].
  change (Py.getitem (String "#" n :: more) 0) with (Ok (String "#" n)).
  cbn iota.
  assert (Hs : Py.strip_chars "#" (String "#" n) = n).
  { rewrite <- (strip_hash_no_hash n Hh) at 2. reflexivity. }
  rewrite Hs, (decode_ascii n (token_all_ascii n Hn)). reflexivity.
Qed.

(** X8.  The counter of a block is the text between the number sign and the
    next white space: for a word [n] in ASCII without number sign (the empty
    word as well), the line [EXTERNAL: #n], followed by white space and
    anything, makes the outer loop store [n] as [execs_done], whatever was
    stored before, and go on with the second read. *)
Theorem scan_lines_start_line (n tail : string) (c : ascii)
    (rest : list string) (w : World) :
  token n = true ->
  no_hash n = true ->
  Py.isspace c = true ->
  scan_lines false (("EXTERNAL: #" +:+ n +:+ String c tail) :: rest) w
  = (block <- stderr_readlines 100 ;;
     done_reading <- read_block false block ;;
     scan_lines done_reading rest) (with_stat "execs_done" n w).
Proof.
  intros Hn Hh Hc.
  rewrite (scan_lines_cons_start _ rest n w
             (counter_of_start_line n tail c Hn Hh Hc)).
  reflexivity.
Qed.

Lemma scan_lines_start_line_witness :
  token "4096" = true /\
  no_hash "4096" = true /\
  Py.isspace " " = true /\
  scan_lines false
    (("EXTERNAL: #" +:+ "4096" +:+ String " " "pulse cov: 120 ft: 310") :: [])
    world_idle
  = (block <- stderr_readlines 100 ;;
     done_reading <- read_block false block ;;
     scan_lines done_reading []) (with_stat "execs_done" "4096" world_idle).
Proof.
  split; [reflexivity |]. split; [reflexivity |]. split; [reflexivity |].
  apply (scan_lines_start_line "4096" "pulse cov: 120 ft: 310" " " []
           world_idle); reflexivity.
Defined.

Lemma rstrip_value_line (v : string) :
  token v = true -> Py.nonempty v = true ->
  Py.rstrip_by Py.isspace (String " " (v +:+ LF)) = String " " v.
Proof.
  intros Hv Hne.
  assert (H : Py.rstrip_by Py.isspace (v +:+ LF) = v).
  { rewrite rstrip_by_app; [by rewrite string_app_nil_r |].
    intros c Hc. by destruct (token_chars v c Hv Hc). }
  rewrite rstrip_by_cons; [by rewrite H |].
  right. rewrite H. by destruct v.
Qed.

(** The text of a metric line once the marker is cut off and the white
    space around is stripped. *)
Lemma strip_metric_line (key v : string) :
  In key ["exec/s"; "units"; "cov"] ->
  token v = true -> Py.nonempty v = true ->
  Py.strip (" " +:+ key +:+ ": " +:+ v +:+ LF) = key +:+ ": " +:+ v.
Proof.
  intros Hk Hv Hne. unfold Py.strip, Py.strip_by.
  assert (Hkey : forall c, In c (String.list_ascii_of_string (key +:+ ":")) ->
                           Py.isspace c = false).
  { intros c Hc. simpl in Hk.
    destruct Hk as [<- | [<- | [<- | []]]]; simpl in Hc;
      repeat (destruct Hc as [<- | Hc]; [reflexivity |]); destruct Hc. }
  assert (Hl : Py.lstrip_by Py.isspace (" " +:+ key +:+ ": " +:+ v +:+ LF)
               = (key +:+ ":") +:+ String " " (v +:+ LF)).
  { simpl in Hk. destruct Hk as [<- | [<- | [<- | []]]]; reflexivity. }
  rewrite Hl, (rstrip_by_app _ _ _ Hkey), (rstrip_value_line v Hv Hne).
  simpl in Hk. destruct Hk as [<- | [<- | [<- | []]]]; reflexivity.
Qed.

(** X9.  A metric line of a block is stored under the name the front ends
    share: for a non-empty word [v] in ASCII, the line [EXTERNAL: key: v]
    with key [exec/s], [units] or [cov] sets [execs_per_sec], [paths_total]
    or [bitmap_cvg] to [v], and the inner loop goes on with the next
    line. *)
Theorem read_block_metric_line (done_reading : bool) (key name v : string)
    (rest : list string) (w : World) :
  In (key, name) metric_names ->
  token v = true ->
  Py.nonempty v = true ->
  read_block done_reading
    (("EXTERNAL: " +:+ key +:+ ": " +:+ v +:+ LF) :: rest) w
  = read_block done_reading rest (with_stat name v w).
Proof.
  intros Hk Hv Hne. cbn [read_block].
  change (Py.getitem (Py.split1 ":" ("EXTERNAL: " +:+ key +:+ ": " +:+ v +:+ LF)) 1)
    with (@Ok string (" " +:+ key +:+ ": " +:+ v +:+ LF)).
  unfold bind at 1. unfold lift at 1.
  assert (Hkey : In key ["exec/s"; "units"; "cov"]).
  { unfold metric_names in Hk. simpl in Hk. simpl.
    destruct Hk as [[= <- _] | [[= <- _] | [[= <- _] | []]]]; tauto. }
  rewrite (strip_metric_line key v Hkey Hv Hne).
  pose proof (decode_ascii v (token_all_ascii v Hv)) as Hd.
  unfold metric_names in Hk. simpl in Hk.
  destruct Hk as [[= <- <-] | [[= <- <-] | [[= <- <-] | []]]].
  - change (negb (Py.nonempty ("exec/s" +:+ ": " +:+ v))
            || String.eqb ("exec/s" +:+ ": " +:+ v) LF) with false.
    cbn iota. unfold bind at 1.
    change (store_metric ("exec/s" +:+ ": " +:+ v) w)
      with ((v' <- lift (Py.decode v) ;; set_stat "execs_per_sec" v') w).
    unfold bind at 1. unfold lift at 1. rewrite Hd. reflexivity.
  - change (negb (Py.nonempty ("units" +:+ ": " +:+ v))
            || String.eqb ("units" +:+ ": " +:+ v) LF) with false.
    cbn iota. unfold bind at 1.
    change (store_metric ("units" +:+ ": " +:+ v) w)
      with ((v' <- lift (Py.decode v) ;; set_stat "paths_total" v') w).
    unfold bind at 1. unfold lift at 1. rewrite Hd. reflexivity.
  - change (negb (Py.nonempty ("cov" +:+ ": " +:+ v))
            || String.eqb ("cov" +:+ ": " +:+ v) LF) with false.
    cbn iota. unfold bind at 1.
    change (store_metric ("cov" +:+ ": " +:+ v) w)
      with ((v' <- lift (Py.decode v) ;; set_stat "bitmap_cvg" v') w).
    unfold bind at 1. unfold lift at 1. rewrite Hd. reflexivity.
Qed.

Lemma read_block_metric_line_witness :
  In ("units", "paths_total") metric_names /\
  token "17" = true /\
  Py.nonempty "17" = true /\
  read_block false
    (("EXTERNAL: " +:+ "units" +:+ ": " +:+ "17" +:+ LF) :: [l_end]) world_idle
  = read_block false [l_end] (with_stat "paths_total" "17" world_idle).
Proof.
  split; [simpl; tauto |]. split; [reflexivity |]. split; [reflexivity |].
  apply (read_block_metric_line false "units" "paths_total" "17" [l_end]
           world_idle); [simpl; tauto | reflexivity | reflexivity].
Defined.

(** * Further properties of [cmd] *)

Lemma truediv_raises_overflow (a b : Z) (e : exn) :
  PyFloat.truediv a b = Raise e -> e = OverflowError.
Proof.
  unfold PyFloat.truediv. destruct (a =? 0); [discriminate |].
  destruct (_ =? 2 ^ PyFloat.prec).
  - destruct (PyFloat.emax <? _); [by intros [= <-] |].
    destruct (_ =? 0); discriminate.
  - destruct (PyFloat.emax <? _); [by intros [= <-] |].
    destruct (_ =? 0); discriminate.
Qed.

(** X10.  [cmd] can fail in one way only: with [OverflowError], from the
    division of a timeout that is set and of [2^1000] milliseconds or more
    in absolute value.  No other attribute can make it raise. *)
Theorem cmd_raises_only_overflow (o : LibFuzzer) (e : exn) :
  cmd o = Raise e ->
  e = OverflowError /\
  exists n, exec_timeout o = Some n /\ 2 ^ 1000 <= Z.abs n.
Proof.
  rewrite cmd_groups. unfold timeout_value.
  destruct (exec_timeout o) as [n|]; [|discriminate].
  destruct (n =? 0); [discriminate |].
  destruct (PyFloat.truediv n 1000) as [x|e'] eqn:Hd; [discriminate |].
  intros [= <-]. split; [by apply (truediv_raises_overflow n 1000) |].
  exists n. split; [reflexivity |].
  destruct (Z_lt_le_dec (Z.abs n) (2 ^ 1000)) as [Hlt | Hge]; [|exact Hge].
  destruct (truediv_1000_in_range n Hlt) as [x Hx]. congruence.
Qed.

Lemma cmd_raises_only_overflow_witness :
  cmd sample_overlong = Raise OverflowError /\
  OverflowError = OverflowError /\
  exists n, exec_timeout sample_overlong = Some n /\ 2 ^ 1000 <= Z.abs n.
Proof.
  assert (H : cmd sample_overlong = Raise OverflowError)
    by (vm_compute; reflexivity).
  split; [exact H |].
  exact (cmd_raises_only_overflow sample_overlong OverflowError H).
Defined.

Lemma passthrough_flag_dash (kv : string * option string) :
  Py.startswith "-" (passthrough_flag kv) = true.
Proof. unfold passthrough_flag. by destruct (snd kv). Qed.

(** X11.  Every argument before the positional ones starts with a dash:
    the required flags, each passthrough argument whatever its key, and the
    optional flags.  What follows them is the push directory and the
    seeds. *)
Theorem cmd_flags_start_with_dash (o : LibFuzzer) :
  valid_config o ->
  exists flags,
    cmd o = Ok (flags ++ push_dir o :: seed_args o) /\
    length flags = (6 + length (fuzzer_args o)
                    + length (dict_flag o)
                    + (if truthy_int (exec_timeout o) then 1 else 0)
                    + length (stats_flag o))%nat /\
    Forall (fun t => Py.startswith "-" t = true) flags.
Proof.
  intros Hv. destruct (timeout_value_in_range o Hv) as [t Ht].
  exists (required_flags o ++ passthrough_flags o ++ optional_flags o t).
  split; [| split].
  - rewrite cmd_groups, Ht. unfold positional_args. by rewrite <- !app_assoc.
  - unfold optional_flags. rewrite !length_app. unfold passthrough_flags.
    rewrite length_map.
    assert (Hlen : length (timeout_flag t)
                   = if truthy_int (exec_timeout o) then 1%nat else 0%nat).
    { unfold timeout_value, truthy_int in *.
      destruct (exec_timeout o) as [n|]; [|by injection Ht as <-].
      destruct (n =? 0); [by injection Ht as <- |].
      destruct (PyFloat.truediv n 1000); [by injection Ht as <- | discriminate]. }
    rewrite Hlen. simpl. lia.
  - rewrite !Forall_app. split; [| split].
    + unfold required_flags. repeat (constructor; [reflexivity |]). constructor.
    + unfold passthrough_flags. apply Forall_map.
      apply Forall_forall. intros kv _. apply passthrough_flag_dash.
    + unfold optional_flags, dict_flag, timeout_flag, stats_flag.
      rewrite !Forall_app. split; [| split].
      * destruct (dictionary o) as [d|]; [|constructor].
        destruct (Py.nonempty d); repeat constructor.
      * destruct t; repeat constructor.
      * destruct (post_stats o); repeat constructor.
Qed.

Lemma cmd_flags_start_with_dash_witness :
  valid_config sample_full /\
  exists flags,
    cmd sample_full = Ok (flags ++ push_dir sample_full :: seed_args sample_full) /\
    length flags = (6 + length (fuzzer_args sample_full)
                    + length (dict_flag sample_full)
                    + (if truthy_int (exec_timeout sample_full) then 1 else 0)
                    + length (stats_flag sample_full))%nat /\
    Forall (fun t => Py.startswith "-" t = true) flags.
Proof.
  split; [vm_compute; reflexivity |].
  apply (cmd_flags_start_with_dash sample_full). vm_compute. reflexivity.
Defined.

(** * Properties of [compile] *)

Lemma split_char_nonempty (sep : ascii) (s cur : string) :
  split_char sep cur s <> [].
Proof.
  revert cur. induction s as [|c s IH]; intros cur; [done |].
  cbn [split_char]. destruct (Ascii.eqb c sep); [done | apply IH].
Qed.

Lemma split_char_join (s cur : string) :
  join " " (split_char " " cur s) = cur +:+ s.
Proof.
  revert cur. induction s as [|c s IH]; intros cur.
  - simpl. by rewrite string_app_nil_r.
  - cbn [split_char]. destruct (Ascii.eqb c " ") eqn:Hc.
    + apply Ascii.eqb_eq in Hc. subst c.
      specialize (IH EmptyString). rewrite string_app_nil_l in IH.
      destruct (split_char " " EmptyString s) as [|x l] eqn:E.
      * by apply split_char_nonempty in E.
      * change (join " " (cur :: x :: l))
          with (cur +:+ " " +:+ join " " (x :: l)).
        rewrite IH. reflexivity.
    + rewrite IH. by rewrite string_app_assoc.
Qed.

Lemma no_space_app (a b : string) :
  no_space a = true -> no_space b = true -> no_space (a +:+ b) = true.
Proof.
  induction a as [|c a IH]; intros Ha Hb; [exact Hb |].
  rewrite string_app_cons. simpl in *.
  apply andb_true_iff in Ha as [Hc Ha]. by rewrite Hc, IH.
Qed.

Lemma split_char_no_space (s cur : string) :
  no_space cur = true ->
  Forall (fun t => no_space t = true) (split_char " " cur s).
Proof.
  revert cur. induction s as [|c s IH]; intros cur Hcur.
  - by repeat constructor.
  - cbn [split_char]. destruct (Ascii.eqb c " ") eqn:Hc.
    + constructor; [exact Hcur | by apply IH].
    + apply IH. apply no_space_app; [exact Hcur |]. simpl. by rewrite Hc.
Qed.

(** X12.  [compile] hands the two flags of the libFuzzer build to the base
    method first, then the pieces of [compiler_args] cut at every space: no
    piece holds a space, and the pieces joined by spaces give
    [compiler_args] back (nothing at all when it is unset or empty). *)
Theorem compile_flags_round_trip
    (super_compile : string -> list string -> string -> M unit)
    (compiler_args : option string) (out_test_name : string) :
  exists extra,
    compile super_compile compiler_args out_test_name =
      super_compile "/usr/local/lib/libdeepstate_LF.a"
        ("-ldeepstate_LF" :: "-fsanitize=fuzzer,undefined" :: extra)
        out_test_name /\
    join " " extra = default EmptyString compiler_args /\
    Forall (fun t => no_space t = true) extra /\
    (extra = [] <-> truthy_str compiler_args = false).
Proof.
  unfold compile, compile_flags.
  destruct (truthy_str compiler_args) eqn:Ht.
  - exists (split_char " " EmptyString (default EmptyString compiler_args)).
    split_and!.
    + reflexivity.
    + by rewrite split_char_join, string_app_nil_l.
    + by apply split_char_no_space.
    + split; [|discriminate]. intros H.
      by apply split_char_nonempty in H.
  - exists []. split_and!.
    + reflexivity.
    + destruct compiler_args as [[|c s]|]; [reflexivity | discriminate Ht | reflexivity].
    + constructor.
    + done.
Qed.

Lemma compile_flags_round_trip_witness :
  exists extra,
    compile (fun _ _ _ => ret tt) (Some "-O2 -g") "harness" =
      (fun _ _ _ => ret tt) "/usr/local/lib/libdeepstate_LF.a"
        ("-ldeepstate_LF" :: "-fsanitize=fuzzer,undefined" :: extra)
        "harness" /\
    join " " extra = default EmptyString (Some "-O2 -g") /\
    Forall (fun t => no_space t = true) extra /\
    (extra = [] <-> truthy_str (Some "-O2 -g") = false).
Proof.
  exact (compile_flags_round_trip (fun _ _ _ => ret tt) (Some "-O2 -g") "harness").
Defined.

Lemma split_char_double_space (a b cur : string) :
  In EmptyString (split_char " " cur (a +:+ "  " +:+ b)).
Proof.
  revert cur. induction a as [|c a IH]; intros cur.
  - change (EmptyString +:+ "  " +:+ b) with (String " " (String " " b)).
    cbn [split_char]. change (Ascii.eqb " " " ") with true. cbn iota.
    right. by left.
  - rewrite string_app_cons. cbn [split_char].
    destruct (Ascii.eqb c " "); [right |]; apply IH.
Qed.

(** X13.  Two spaces in a row in [compiler_args] give the compiler an empty
    argument: the pieces are cut at every single space, so the empty piece
    between the two spaces is among the flags. *)
Theorem compile_flags_empty_argument (a b : string) :
  In EmptyString (compile_flags (Some (a +:+ "  " +:+ b))).
Proof.
  unfold compile_flags.
  assert (Ht : truthy_str (Some (a +:+ "  " +:+ b)) = true).
  { simpl. apply nonempty_app_r. reflexivity. }
  rewrite Ht. apply in_app_iff. right. apply split_char_double_space.
Qed.

(** * Further properties of [pre_exec] *)

Lemma pre_exec_checks_unfold (abspath : string -> string) (super_pre_exec : M unit)
    (w : World) :
  pre_exec_checks abspath super_pre_exec w =
  match super_pre_exec (adopt_binary abspath w) with
  | (Raise e, ws) => (Raise e, ws)
  | (Ok _, ws) =>
      if negb (truthy_str (binary (self ws)))
      then (Raise (FuzzFrontendError "Binary not set."), ws)
      else if blackbox (self ws)
      then (Raise (FuzzFrontendError
                     "Blackbox fuzzing is not supported by libFuzzer."),
            adopt_binary abspath ws)
      else (Ok tt, adopt_binary abspath ws)
  end.
Proof.
  unfold pre_exec_checks, adopt_binary.
  unfold bind at 1. unfold get_self at 1. unfold bind at 1.
  assert (Hpre :
    (if truthy_str (binary (self w))
     then
       (upd_self (set_binary (option_map abspath (binary (self w)))) ;;
        o <- get_self ;;
        upd_self (set_fuzzer_exe (default EmptyString (binary o))))
     else ret tt) w
    = (Ok tt,
       if truthy_str (binary (self w))
       then MkWorld
              (set_fuzzer_exe
                 (default EmptyString (option_map abspath (binary (self w))))
                 (set_binary (option_map abspath (binary (self w))) (self w)))
              (fs w) (log w)
       else w)).
  { by destruct (truthy_str (binary (self w))). }
  rewrite Hpre. unfold bind at 1.
  destruct (super_pre_exec _) as [[[]|e] ws]; [|reflexivity].
  unfold bind at 1. unfold get_self at 1.
  destruct (truthy_str (binary (self ws))); [|reflexivity].
  cbn [negb]. cbn iota. unfold bind, upd_self, get_self, raise, ret. cbn.
  by destruct (blackbox (self ws)).
Qed.

(** X14.  When [pre_exec] returns normally the object is ready for [cmd]:
    blackbox mode is off, the fuzzer executable is the harness binary, an
    absolute path, the pull directory is the push directory
    [<out>/sync_dir/queue], and the crash directory is
    [<out>/the_fuzzer/crashes]. *)
Theorem pre_exec_success (abspath : string -> string) (super_pre_exec : M unit)
    (w w2 : World) :
  pre_exec abspath super_pre_exec w = (Ok tt, w2) ->
  blackbox (self w2) = false /\
  (exists b, binary (self w2) = Some (abspath b) /\
             fuzzer_exe (self w2) = abspath b) /\
  pull_dir (self w2) = push_dir (self w2) /\
  push_dir (self w2) = push_path (output_test_dir (self w2)) /\
  crash_dir (self w2) = crash_path (output_test_dir (self w2)).
Proof.
  unfold pre_exec, bind. rewrite pre_exec_checks_unfold.
  destruct (super_pre_exec _) as [[[]|e] ws]; [|discriminate].
  destruct (truthy_str (binary (self ws))) eqn:Hb; [|discriminate].
  cbn [negb]. cbn iota.
  destruct (blackbox (self ws)) eqn:Hbb; [discriminate |].
  assert (Hck : blackbox (self (adopt_binary abspath ws)) = false /\
                exists b, binary (self (adopt_binary abspath ws)) = Some (abspath b)
                  /\ fuzzer_exe (self (adopt_binary abspath ws)) = abspath b).
  { unfold adopt_binary. rewrite Hb. cbn. split; [exact Hbb |].
    destruct (binary (self ws)) as [b|]; [|discriminate Hb]. by exists b. }
  set (w1 := adopt_binary abspath ws) in *. destruct Hck as [Hk1 Hk2].
  rewrite pre_exec_layout_unfold. cbn zeta.
  destruct (Os.listdir _ (fs w1)) as [entries|err]; [|discriminate].
  destruct (0 <? Z.of_nat (length entries)).
  - match goal with
    | |- context [check_required_directories ?ds ?w'] =>
        pose proof (check_required_directories_world ds w') as Hw;
        destruct (check_required_directories ds w') as [[[]|err] w'']
    end; [|discriminate].
    simpl in Hw. subst w''. intros [= <-]. cbn. by split_and!.
  - intros [= <-]. cbn. by split_and!.
Qed.

Lemma pre_exec_success_witness :
  let w2 := snd (pre_exec sample_abspath (ret tt) world_fresh) in
  pre_exec sample_abspath (ret tt) world_fresh = (Ok tt, w2) /\
  blackbox (self w2) = false /\
  (exists b, binary (self w2) = Some (sample_abspath b) /\
             fuzzer_exe (self w2) = sample_abspath b) /\
  pull_dir (self w2) = push_dir (self w2) /\
  push_dir (self w2) = push_path (output_test_dir (self w2)) /\
  crash_dir (self w2) = crash_path (output_test_dir (self w2)).
Proof.
  intros w2. split; [vm_compute; reflexivity |].
  apply (pre_exec_success sample_abspath (ret tt) world_fresh w2).
  vm_compute. reflexivity.
Defined.

(** X15.  A missing binary and blackbox mode are refused before the output
    directory is looked at: when the base method returns normally and
    leaves no binary, or leaves blackbox mode on, [pre_exec] raises
    [FuzzFrontendError] (the missing binary is reported first), and the
    file system, the log and the session directories of the object are as
    the base method left them. *)
Theorem pre_exec_refuses_early (abspath : string -> string)
    (super_pre_exec : M unit) (w ws : World) :
  super_pre_exec (adopt_binary abspath w) = (Ok tt, ws) ->
  truthy_str (binary (self ws)) = false \/ blackbox (self ws) = true ->
  exists w',
    pre_exec abspath super_pre_exec w =
      (Raise (FuzzFrontendError
                (if truthy_str (binary (self ws))
                 then "Blackbox fuzzing is not supported by libFuzzer."
                 else "Binary not set.")), w') /\
    fs w' = fs ws /\
    log w' = log ws /\
    push_dir (self w') = push_dir (self ws) /\
    pull_dir (self w') = pull_dir (self ws) /\
    crash_dir (self w') = crash_dir (self ws) /\
    input_seeds (self w') = input_seeds (self ws).
Proof.
  intros Hs H. unfold pre_exec, bind. rewrite pre_exec_checks_unfold, Hs.
  destruct (truthy_str (binary (self ws))) eqn:Hb.
  - destruct H as [H | H]; [discriminate H |]. rewrite H. cbn [negb]. cbn iota.
    eexists. split; [reflexivity |].
    unfold adopt_binary. rewrite Hb. cbn. by split_and!.
  - cbn [negb]. cbn iota. eexists. split; [reflexivity |]. by split_and!.
Qed.

Lemma pre_exec_refuses_early_witness :
  let ws := adopt_binary sample_abspath world_blackbox in
  ret tt (adopt_binary sample_abspath world_blackbox) = (Ok tt, ws) /\
  (truthy_str (binary (self ws)) = false \/ blackbox (self ws) = true) /\
  exists w',
    pre_exec sample_abspath (ret tt) world_blackbox =
      (Raise (FuzzFrontendError
                (if truthy_str (binary (self ws))
                 then "Blackbox fuzzing is not supported by libFuzzer."
                 else "Binary not set.")), w') /\
    fs w' = fs ws /\
    log w' = log ws /\
    push_dir (self w') = push_dir (self ws) /\
    pull_dir (self w') = pull_dir (self ws) /\
    crash_dir (self w') = crash_dir (self ws) /\
    input_seeds (self w') = input_seeds (self ws).
Proof.
  intros ws. split; [reflexivity |]. split; [right; reflexivity |].
  apply (pre_exec_refuses_early sample_abspath (ret tt) world_blackbox ws);
    [reflexivity | right; reflexivity].
Defined.

Lemma mkdir_if_absent_covers (f : gmap (list string) node) (k : list string) :
  is_Some (Os.mkdir_if_absent f k !! k).
Proof.
  unfold Os.mkdir_if_absent. destruct (f !! k) as [v|] eqn:Hk.
  - rewrite Hk. by eexists.
  - rewrite lookup_insert_eq. by eexists.
Qed.

Lemma foldl_mkdir_covers (ks : list (list string)) (f : gmap (list string) node)
    (k : list string) :
  In k ks -> is_Some (foldl Os.mkdir_if_absent f ks !! k).
Proof.
  revert f. induction ks as [|k0 ks IH]; intros f; [done |].
  intros [-> | Hin]; simpl.
  - destruct (mkdir_if_absent_covers f k) as [v Hv]. exists v.
    by apply (lookup_weaken _ _ _ _ Hv), foldl_mkdir_subseteq.
  - by apply IH.
Qed.

Lemma prefixes_in (pre k1 k2 : list string) (x : string) :
  In (pre ++ k1 ++ [x]) (Os.prefixes pre (k1 ++ x :: k2)).
Proof.
  revert pre. induction k1 as [|y k1 IH]; intros pre; simpl.
  - by left.
  - right. specialize (IH (pre ++ [y])). by rewrite <- app_assoc in IH.
Qed.

(** A directory with an entry has a non-empty listing. *)
Lemma listdir_entry (d : string) (f : gmap (list string) node) (x : string) :
  f !! Os.components d = Some Dir ->
  is_Some (f !! (Os.components d ++ [x])) ->
  exists e es, Os.listdir d f = Ok (e :: es).
Proof.
  intros Hd [v Hv]. unfold Os.listdir. rewrite Hd.
  apply elem_of_map_to_list in Hv.
  assert (Hin : x ∈ omap (fun kv : list string * node =>
                            Os.child_name (Os.components d) (fst kv))
                         (map_to_list f)).
  { apply list_elem_of_omap. eexists. split; [exact Hv |].
    simpl. apply child_name_entry. }
  destruct (omap _ (map_to_list f)) as [|e es]; [|eauto].
  by apply not_elem_of_nil in Hin.
Qed.

(** X16.  A session that was started afresh can be resumed: on an empty
    output directory (in a well-formed file system) the layout step returns
    normally, and the same step run again finds the directories it has made,
    takes the resume branch, returns normally, leaves the file system as it
    is, drops the seeds and logs the resuming message. *)
Theorem pre_exec_layout_fresh_then_resume (w1 : World) :
  fs_wfb (fs w1) = true ->
  Os.listdir (output_test_dir (self w1)) (fs w1) = Ok [] ->
  let w2 := snd (pre_exec_layout w1) in
  fst (pre_exec_layout w1) = Ok tt /\
  exists w3,
    pre_exec_layout w2 = (Ok tt, w3) /\
    fs w3 = fs w2 /\
    input_seeds (self w3) = None /\
    log w3 = log w2 ++ [resume_message (push_path (output_test_dir (self w1)))].
Proof.
  intros Hwf Hl. apply fs_wfb_sound in Hwf.
  set (out := output_test_dir (self w1)) in *.
  assert (Hw2 : pre_exec_layout w1 =
                (Ok tt, MkWorld (with_paths (self w1))
                          (Os.makedirs (crash_path out)
                             (Os.makedirs (push_path out) (fs w1))) (log w1))).
  { rewrite pre_exec_layout_unfold. cbn zeta. fold out. rewrite Hl. reflexivity. }
  rewrite Hw2. cbn [fst snd]. split; [reflexivity |].
  set (f2 := Os.makedirs (crash_path out) (Os.makedirs (push_path out) (fs w1))).
  assert (Hp : fs w1 !! Os.components (push_path out) = None)
    by (rewrite components_push; by apply listdir_nil_absent2).
  assert (Hcr : fs w1 !! Os.components (crash_path out) = None)
    by (rewrite components_crash; by apply listdir_nil_absent2).
  assert (Hpush : Os.isdir (push_path out) f2 = true).
  { apply (isdir_subseteq _ _ _ (makedirs_subseteq _ _)).
    apply makedirs_isdir; [apply components_push_nonempty | by rewrite Hp]. }
  assert (Hcrash : Os.isdir (crash_path out) f2 = true).
  { apply makedirs_isdir; [apply components_crash_nonempty |].
    apply makedirs_not_file. by rewrite Hcr. }
  assert (Hsub : fs w1 ⊆ f2) by (etrans; apply makedirs_subseteq).
  assert (Hout : f2 !! Os.components out = Some Dir).
  { unfold Os.listdir in Hl.
    destruct (fs w1 !! Os.components out) as [[|]|] eqn:Ho; try discriminate Hl.
    by apply (lookup_weaken _ _ _ _ Ho). }
  assert (Hentry : is_Some (f2 !! (Os.components out ++ ["sync_dir"]))).
  { assert (H : is_Some (Os.makedirs (push_path out) (fs w1)
                           !! (Os.components out ++ ["sync_dir"]))).
    { unfold Os.makedirs. apply foldl_mkdir_covers.
      rewrite components_push.
      apply (prefixes_in [] (Os.components out) ["queue"] "sync_dir"). }
    destruct H as [v Hv]. exists v.
    by apply (lookup_weaken _ _ _ _ Hv), makedirs_subseteq. }
  destruct (listdir_entry out f2 "sync_dir" Hout Hentry) as (e & es & Hl2).
  rewrite pre_exec_layout_unfold. cbn zeta. cbn [self fs log].
  change (output_test_dir (with_paths (self w1))) with out.
  rewrite Hl2.
  replace (0 <? Z.of_nat (length (e :: es))) with true
    by (symmetry; apply Z.ltb_lt; simpl; lia).
  change (push_dir (with_paths (with_paths (self w1)))) with (push_path out).
  change (pull_dir (with_paths (with_paths (self w1)))) with (push_path out).
  change (crash_dir (with_paths (with_paths (self w1)))) with (crash_path out).
  rewrite check_required_directories_ok
    by (cbn [fs forallb]; by rewrite Hpush, Hcrash).
  eexists. split; [reflexivity |]. by split_and!.
Qed.

Lemma pre_exec_layout_fresh_then_resume_witness :
  let w1 := MkWorld checked (fs world_fresh) [] in
  let w2 := snd (pre_exec_layout w1) in
  fs_wfb (fs w1) = true /\
  Os.listdir (output_test_dir (self w1)) (fs w1) = Ok [] /\
  fst (pre_exec_layout w1) = Ok tt /\
  exists w3,
    pre_exec_layout w2 = (Ok tt, w3) /\
    fs w3 = fs w2 /\
    input_seeds (self w3) = None /\
    log w3 = log w2 ++ [resume_message (push_path (output_test_dir (self w1)))].
Proof.
  intros w1 w2. split; [vm_compute; reflexivity |].
  split; [vm_compute; reflexivity |].
  apply (pre_exec_layout_fresh_then_resume w1); vm_compute; reflexivity.
Defined.

(** * The two reads *)

Lemma block_end_plain (line a b : string) :
  Py.split1 ":" line = [a; b] ->
  block_end line
  = negb (Py.nonempty (Py.strip b)) || String.eqb (Py.strip b) LF.
Proof. intros Hs. unfold block_end. by rewrite Hs. Qed.

(** X17.  On lines in ASCII that all have a colon, the inner loop returns
    normally and sets [done_reading] exactly when one of the lines ends the
    block: without such a line the flag stays unset, and the outer loop
    goes on with the lines of the first read. *)
Theorem read_block_done_iff_block_end (lines : list string) (w : World) :
  Forall (fun line => plain_line line = true) lines ->
  fst (read_block false lines w) = Ok (existsb block_end lines).
Proof.
  intros Hall. revert w.
  induction Hall as [|line rest Hline _ IH]; intros w; [reflexivity |].
  unfold plain_line in Hline. apply andb_true_iff in Hline as [Hc Ha].
  destruct (contains_getitem ":" line Hc) as (a & b & Hp & Hs).
  destruct (all_ascii_partition _ _ _ _ Ha Hp) as [_ Hb].
  cbn [read_block existsb]. rewrite (block_end_plain line a b Hs).
  rewrite Hs. unfold bind at 1. unfold lift at 1.
  change (Py.getitem [a; b] 1) with (Ok b). cbn iota.
  destruct (_ || _); [reflexivity |].
  cbn [orb]. unfold bind.
  pose proof (store_metric_plain (Py.strip b) w
                (all_ascii_strip_by _ _ Hb)) as Hm.
  destruct (store_metric (Py.strip b) w) as [[[]|e] w1]; [|discriminate Hm].
  apply IH.
Qed.

Lemma read_block_done_iff_block_end_witness :
  Forall (fun line => plain_line line = true) [l_rate; l_units; l_cov] /\
  fst (read_block false [l_rate; l_units; l_cov] world_idle)
  = Ok (existsb block_end [l_rate; l_units; l_cov]).
Proof.
  assert (H : Forall (fun line => plain_line line = true) [l_rate; l_units; l_cov]).
  { repeat (constructor; [vm_compute; reflexivity |]). constructor. }
  split; [exact H |].
  exact (read_block_done_iff_block_end [l_rate; l_units; l_cov] world_idle H).
Defined.

Lemma readlines_from_nil (hint total : Z) :
  readlines_from hint total [] = ([], []).
Proof. reflexivity. Qed.

Lemma scan_lines_empty_pipe (lines : list string) (d : bool) (w : World)
    (k : string) :
  proc (self w) = Some (MkProc false []) ->
  k <> "execs_done" ->
  proc (self (snd (scan_lines d lines w))) = Some (MkProc false []) /\
  stats (self (snd (scan_lines d lines w))) !! k = stats (self w) !! k.
Proof.
  intros Hp Hk. revert d w Hp. induction lines as [|line rest IH]; intros d w Hp.
  - by split.
  - destruct d; [rewrite scan_lines_done; by split |].
    destruct (counter_of line) as [[v|]|e] eqn:Hc.
    + set (wb := block_opened v [] w).
      assert (E : scan_lines false (line :: rest) w = scan_lines false rest wb).
      { rewrite (scan_lines_cons_start line rest v w Hc).
        unfold bind at 1. unfold set_stat at 1, upd_self at 1.
        set (wa := MkWorld _ (fs w) (log w)).
        assert (Hpa : proc (self wa) = Some (MkProc false [])) by exact Hp.
        unfold bind at 1.
        rewrite (stderr_readlines_open wa (MkProc false []) Hpa eq_refl).
        reflexivity. }
      rewrite E. destruct (IH false wb eq_refl) as [H1 H2].
      split; [exact H1 |]. rewrite H2. unfold wb, block_opened. cbn.
      by rewrite lookup_insert_ne.
    + rewrite (scan_lines_cons_skip line rest w Hc). by apply IH.
    + rewrite (scan_lines_cons_raise line rest e w Hc). by split.
Qed.

(** X18.  The metrics are looked for in the second read only: when the
    stream ends within the first read (the first read takes every line that
    comes before the end of file), a block that starts there gives its
    counter and nothing else, and [execs_per_sec], [paths_total] and
    [bitmap_cvg] (every statistic but [execs_done]) are what they were. *)
Theorem populate_stats_short_pipe (super_populate_stats : M unit)
    (w w0 : World) (p : Proc) (k : string) :
  super_populate_stats w = (Ok tt, w0) ->
  proc (self w0) = Some p ->
  snd (readlines 100 (stderr_lines p)) = [] ->
  k <> "execs_done" ->
  let w' := snd (populate_stats super_populate_stats w) in
  stats (self w') !! k = stats (self w0) !! k.
Proof.
  intros Hs Hp Hr Hk. unfold populate_stats, bind. rewrite Hs.
  unfold read_stats. unfold bind at 1. unfold get_self at 1. rewrite Hp.
  destruct (stderr_closed p) eqn:Hc; [reflexivity |].
  unfold bind. rewrite (stderr_readlines_open w0 p Hp Hc). rewrite Hr.
  cbn [fst snd].
  match goal with
  | |- context [scan_lines false ?ls ?wa] =>
      destruct (scan_lines_empty_pipe ls false wa k eq_refl Hk) as [_ H]
  end.
  exact H.
Qed.

Lemma populate_stats_short_pipe_witness :
  let w := running stream_short in
  let p := MkProc false stream_short in
  let w' := snd (populate_stats (ret tt) w) in
  ret tt w = (Ok tt, w) /\
  proc (self w) = Some p /\
  snd (readlines 100 (stderr_lines p)) = [] /\
  "execs_per_sec" <> "execs_done" /\
  stats (self w') !! "execs_per_sec" = stats (self w) !! "execs_per_sec".
Proof.
  intros w p w'. split; [reflexivity |]. split; [reflexivity |].
  split; [vm_compute; reflexivity |]. split; [discriminate |].
  apply (populate_stats_short_pipe (ret tt) w w p "execs_per_sec");
    [reflexivity | reflexivity | vm_compute; reflexivity | discriminate].
Defined.

(** The block of the sample: its counter is stored, its rate is not. *)
Example populate_stats_short_example :
  stats_of (snd (populate_stats (ret tt) (running stream_short)))
  = [("execs_done", "42")].
Proof. vm_compute. reflexivity. Qed.
